(** * pi-kimi-coder: the credential broker of [src/extensions/index.ts]

    A shallow embedding of the token store, the broker store, the OAuth
    device-flow client, the credential reconciler and the refresh scheduler,
    together with the properties the design document states about them.

    Modelling conventions.
    - JavaScript numbers are exact rationals extended with NaN and the two
      infinities.  Rounding of IEEE doubles, overflow and the sign of zero
      are not modelled (zero behaves as +0).
    - A file is described by what [fs.readFileSync] followed by [JSON.parse]
      makes of it; a text is either malformed or encodes one JSON tree.
    - Exceptions are values of [completion]; [try]/[catch] is [try_catch].
    - The conversions the engine performs on strings, numbers and objects
      ([StringToNumber], [Number::toString], [Array.prototype.toString], ...)
      are not part of the repository; they are the fields of [Engine]. *)

From Stdlib Require Import ZArith QArith Qround Bool List String Lia.
From Stdlib Require Import DecimalString Lqa.
Import ListNotations.

Local Open Scope string_scope.
Local Open Scope bool_scope.

(* ================================================================== *)
(** ** JavaScript numbers *)
(* ================================================================== *)

Inductive num : Type :=
| NaN
| Inf (negative : bool)
| Fin (q : Q).

Definition num_of_Z (z : Z) : num := Fin (inject_Z z).
Definition num_of_nat (n : nat) : num := num_of_Z (Z.of_nat n).

Definition Qis_zero (q : Q) : bool := (Qnum q =? 0)%Z.
Definition Qis_neg (q : Q) : bool := (Qnum q <? 0)%Z.
Definition Qltb (p q : Q) : bool :=
  match (p ?= q)%Q with Lt => true | _ => false end.

(** [a + b] *)
Definition num_add (a b : num) : num :=
  match a, b with
  | NaN, _ | _, NaN => NaN
  | Inf s, Inf t => if Bool.eqb s t then Inf s else NaN
  | Inf s, Fin _ => Inf s
  | Fin _, Inf t => Inf t
  | Fin p, Fin q => Fin (p + q)
  end.

(** [a - b] *)
Definition num_sub (a b : num) : num :=
  match a, b with
  | NaN, _ | _, NaN => NaN
  | Inf s, Inf t => if Bool.eqb s t then NaN else Inf s
  | Inf s, Fin _ => Inf s
  | Fin _, Inf t => Inf (negb t)
  | Fin p, Fin q => Fin (p - q)
  end.

(** [a * b] *)
Definition num_mul (a b : num) : num :=
  match a, b with
  | NaN, _ | _, NaN => NaN
  | Inf s, Inf t => Inf (xorb s t)
  | Inf s, Fin q => if Qis_zero q then NaN else Inf (xorb s (Qis_neg q))
  | Fin p, Inf t => if Qis_zero p then NaN else Inf (xorb (Qis_neg p) t)
  | Fin p, Fin q => Fin (p * q)
  end.

(** [a / b] *)
Definition num_div (a b : num) : num :=
  match a, b with
  | NaN, _ | _, NaN => NaN
  | Inf _, Inf _ => NaN
  | Inf s, Fin q => Inf (xorb s (Qis_neg q))
  | Fin _, Inf _ => Fin 0
  | Fin p, Fin q =>
      if Qis_zero q
      then (if Qis_zero p then NaN else Inf (Qis_neg p))
      else Fin (p / q)
  end.

(** [a < b]; any comparison with NaN is false. *)
Definition num_ltb (a b : num) : bool :=
  match a, b with
  | NaN, _ | _, NaN => false
  | Inf s, Inf t => s && negb t
  | Inf s, Fin _ => s
  | Fin _, Inf t => negb t
  | Fin p, Fin q => Qltb p q
  end.

(** [a > b] *)
Definition num_gtb (a b : num) : bool := num_ltb b a.

(** [a === b] on numbers *)
Definition num_eqb (a b : num) : bool :=
  match a, b with
  | Inf s, Inf t => Bool.eqb s t
  | Fin p, Fin q => Qeq_bool p q
  | _, _ => false
  end.

(** [Math.ceil(a)] *)
Definition Math_ceil (a : num) : num :=
  match a with
  | Fin q => Fin (inject_Z (Qceiling q))
  | _ => a
  end.

(** [Math.max(a, b)] *)
Definition Math_max (a b : num) : num :=
  match a, b with
  | NaN, _ | _, NaN => NaN
  | _, _ => if num_ltb a b then b else a
  end.

(** A number is falsy when it is zero or NaN. *)
Definition num_truthy (a : num) : bool :=
  match a with
  | NaN => false
  | Inf _ => true
  | Fin q => negb (Qis_zero q)
  end.

(* ================================================================== *)
(** ** JSON trees and JavaScript values *)
(* ================================================================== *)

#[local] Set Warnings "-register-all".

(** What a JSON text denotes. *)
Inductive json : Type :=
| JNull
| JBool (b : bool)
| JNum (q : Q)
| JStr (s : string)
| JArr (items : list json)
| JObj (members : list (string * json)).

(** Run-time values.  Objects keep their own properties in insertion order. *)
Inductive value : Type :=
| VUndef
| VNull
| VBool (b : bool)
| VNum (n : num)
| VStr (s : string)
| VArr (items : list value)
| VObj (props : list (string * value)).

(** Own-property lookup and assignment on a property list. *)
Fixpoint assoc {A : Type} (k : string) (m : list (string * A)) : option A :=
  match m with
  | [] => None
  | (k', a) :: m' => if String.eqb k k' then Some a else assoc k m'
  end.

Fixpoint assoc_set {A : Type} (k : string) (a : A) (m : list (string * A))
  : list (string * A) :=
  match m with
  | [] => [(k, a)]
  | (k', a') :: m' =>
      if String.eqb k k' then (k, a) :: m' else (k', a') :: assoc_set k a m'
  end.

(** The value [JSON.parse] builds for a JSON tree. *)
Fixpoint of_json (j : json) : value :=
  match j with
  | JNull => VNull
  | JBool b => VBool b
  | JNum q => VNum (Fin q)
  | JStr s => VStr s
  | JArr items => VArr (map of_json items)
  | JObj members =>
      VObj (map (fun kv => match kv with (k, x) => (k, of_json x) end) members)
  end.

(** The JSON tree [JSON.stringify] writes for a value: [None] is
    [undefined] (nothing is written); inside an array [undefined] becomes
    [null]; an object member whose value is [undefined] is dropped; NaN and
    the infinities become [null]. *)
Fixpoint to_json (v : value) : option json :=
  match v with
  | VUndef => None
  | VNull => Some JNull
  | VBool b => Some (JBool b)
  | VNum (Fin q) => Some (JNum q)
  | VNum _ => Some JNull
  | VStr s => Some (JStr s)
  | VArr items =>
      Some (JArr (map (fun x => match to_json x with
                                | Some j => j
                                | None => JNull
                                end) items))
  | VObj props =>
      Some (JObj (flat_map (fun kv => match kv with
                                      | (k, x) =>
                                          match to_json x with
                                          | Some j => [(k, j)]
                                          | None => []
                                          end
                                      end) props))
  end.

(** Induction on JSON trees, through the lists they nest. *)
Section JsonInduction.
Variable P : json -> Prop.
Hypothesis Hnull : P JNull.
Hypothesis Hbool : forall b, P (JBool b).
Hypothesis Hnum : forall q, P (JNum q).
Hypothesis Hstr : forall s, P (JStr s).
Hypothesis Harr : forall items, Forall P items -> P (JArr items).
Hypothesis Hobj :
  forall members, Forall (fun kv => P (snd kv)) members -> P (JObj members).

Fixpoint json_nested_ind (j : json) : P j :=
  match j with
  | JNull => Hnull
  | JBool b => Hbool b
  | JNum q => Hnum q
  | JStr s => Hstr s
  | JArr items =>
      Harr items
        ((fix all (l : list json) : Forall P l :=
            match l with
            | [] => Forall_nil _
            | x :: l' => Forall_cons x (json_nested_ind x) (all l')
            end) items)
  | JObj members =>
      Hobj members
        ((fix all (l : list (string * json))
            : Forall (fun kv => P (snd kv)) l :=
            match l with
            | [] => Forall_nil _
            | kv :: l' =>
                Forall_cons kv (json_nested_ind (snd kv)) (all l')
            end) members)
  end.
End JsonInduction.

(* ================================================================== *)
(** ** Conversions and operators *)
(* ================================================================== *)

(** The built-in conversions of the JavaScript engine.  Values come from
    [JSON.parse]; an own member named [toString] or [valueOf] that would
    shadow the built-in method is not modelled. *)
Record Engine : Type := {
  (** [StringToNumber] *)
  string_to_number : string -> num;
  (** [Number::toString] *)
  number_to_string : num -> string;
  (** [toString] of an array or a plain object *)
  object_to_string : value -> string
}.

(** [ToBoolean] *)
Definition truthy (v : value) : bool :=
  match v with
  | VUndef | VNull => false
  | VBool b => b
  | VNum n => num_truthy n
  | VStr s => negb (String.eqb s EmptyString)
  | VArr _ | VObj _ => true
  end.

(** [a || b] *)
Definition js_or (a b : value) : value := if truthy a then a else b.

(** [a === b].  Arrays and objects compare by identity; the only operands
    of that kind the program compares are freshly parsed from a file, so
    they are identical to nothing else. *)
Definition strict_eq (a b : value) : bool :=
  match a, b with
  | VUndef, VUndef | VNull, VNull => true
  | VBool x, VBool y => Bool.eqb x y
  | VNum x, VNum y => num_eqb x y
  | VStr x, VStr y => String.eqb x y
  | _, _ => false
  end.

Section Conversions.
Variable E : Engine.

(** [Number(v)], also the implicit conversion of [<], [>], [*], [-]
    when the other operand is a number. *)
Definition ToNumber (v : value) : num :=
  match v with
  | VUndef => NaN
  | VNull => Fin 0
  | VBool b => if b then Fin 1 else Fin 0
  | VNum n => n
  | VStr s => string_to_number E s
  | VArr _ | VObj _ => string_to_number E (object_to_string E v)
  end.

(** [String(v)] *)
Definition ToString (v : value) : string :=
  match v with
  | VUndef => "undefined"
  | VNull => "null"
  | VBool b => if b then "true" else "false"
  | VNum n => number_to_string E n
  | VStr s => s
  | VArr _ | VObj _ => object_to_string E v
  end.
End Conversions.

(* ================================================================== *)
(** ** Exceptions *)
(* ================================================================== *)

Inductive exn : Type :=
| Error (message : string)   (* [new Error(message)] *)
| TypeError                  (* property access on null or undefined, ... *)
| SyntaxError                (* [JSON.parse], [response.json()] *)
| SystemError                (* a failing [node:fs] call *)
| FetchError.                (* [fetch] rejected *)

Inductive completion (A : Type) : Type :=
| Normal (a : A)
| Throw (e : exn).
Arguments Normal {A} a.
Arguments Throw {A} e.

Definition bind {A B : Type} (c : completion A) (k : A -> completion B)
  : completion B :=
  match c with
  | Normal a => k a
  | Throw e => Throw e
  end.

Definition try_catch {A : Type} (body : completion A)
  (handler : exn -> completion A) : completion A :=
  match body with
  | Normal a => Normal a
  | Throw e => handler e
  end.

Notation "x <- c ;; k" := (bind c (fun x => k))
  (at level 61, c at next level, right associativity).

(** [v.k] and [v[k]].  Reading a property of [null] or [undefined] throws.
    The names the program reads ([access_token], [expires_at], [type],
    ["kimi-coder"], ...) are not defined on any built-in prototype, so on a
    primitive or an array the result is [undefined]. *)
Definition get_prop (v : value) (k : string) : completion value :=
  match v with
  | VUndef | VNull => Throw TypeError
  | VObj props =>
      Normal (match assoc k props with Some x => x | None => VUndef end)
  | _ => Normal VUndef
  end.

(** [v[k] = x] in strict-mode code (the file is an ES module). *)
Definition set_prop (v : value) (k : string) (x : value) : completion value :=
  match v with
  | VObj props => Normal (VObj (assoc_set k x props))
  | VArr items => Normal (VArr items)   (* a named property, not an element:
                                           invisible to JSON.stringify *)
  | _ => Throw TypeError
  end.

(* ================================================================== *)
(** ** Files *)
(* ================================================================== *)

(** A text, seen through [JSON.parse]. *)
Inductive text : Type :=
| Malformed
| Encodes (j : json).

Inductive file : Type :=
| Missing                 (* [existsSync] is false *)
| Unreadable              (* exists, [readFileSync] throws *)
| Holds (t : text).

Inductive path : Type :=
| KIMI_CLI_CREDENTIALS_PATH   (* ~/.kimi/credentials/kimi-code.json *)
| PI_AUTH_PATH.               (* ~/.pi/agent/auth.json *)

(** The two files the broker touches.  [*_writable] tells whether
    [mkdirSync] of the parent directory and [writeFileSync] succeed. *)
Record filesystem : Type := {
  kimi_cli_credentials : file;
  kimi_cli_writable : bool;
  pi_auth : file;
  pi_auth_writable : bool
}.

Definition file_at (fs : filesystem) (p : path) : file :=
  match p with
  | KIMI_CLI_CREDENTIALS_PATH => kimi_cli_credentials fs
  | PI_AUTH_PATH => pi_auth fs
  end.

Definition writable (fs : filesystem) (p : path) : bool :=
  match p with
  | KIMI_CLI_CREDENTIALS_PATH => kimi_cli_writable fs
  | PI_AUTH_PATH => pi_auth_writable fs
  end.

Definition put_file (fs : filesystem) (p : path) (f : file) : filesystem :=
  match p with
  | KIMI_CLI_CREDENTIALS_PATH =>
      {| kimi_cli_credentials := f;
         kimi_cli_writable := kimi_cli_writable fs;
         pi_auth := pi_auth fs;
         pi_auth_writable := pi_auth_writable fs |}
  | PI_AUTH_PATH =>
      {| kimi_cli_credentials := kimi_cli_credentials fs;
         kimi_cli_writable := kimi_cli_writable fs;
         pi_auth := f;
         pi_auth_writable := pi_auth_writable fs |}
  end.

Definition existsSync (fs : filesystem) (p : path) : bool :=
  match file_at fs p with
  | Missing => false
  | _ => true
  end.

Definition readFileSync (fs : filesystem) (p : path) : completion text :=
  match file_at fs p with
  | Holds t => Normal t
  | Missing | Unreadable => Throw SystemError
  end.

Definition mkdirSync (fs : filesystem) (p : path) : completion unit :=
  if writable fs p then Normal tt else Throw SystemError.

(** [JSON.stringify] returns [undefined] for [undefined], and
    [writeFileSync] rejects data that is not a string or a buffer. *)
Definition writeFileSync (fs : filesystem) (p : path) (data : option text)
  : completion filesystem :=
  match data with
  | None => Throw TypeError
  | Some t =>
      if writable fs p then Normal (put_file fs p (Holds t))
      else Throw SystemError
  end.

Definition JSON_parse (t : text) : completion value :=
  match t with
  | Malformed => Throw SyntaxError
  | Encodes j => Normal (of_json j)
  end.

Definition JSON_stringify (v : value) : option text :=
  match to_json v with
  | Some j => Some (Encodes j)
  | None => None
  end.

(* ================================================================== *)
(** ** Constants *)
(* ================================================================== *)

Definition PROVIDER_NAME : string := "kimi-coder".

(* ================================================================== *)
(** ** Token management, shared with kimi-cli *)
(* ================================================================== *)

(** A [KimiToken] is whatever object the credentials file holds
    ([data as KimiToken] checks nothing) or the object literal built from a
    token response; either way a [value]. *)
Definition KimiToken : Type := value.

(** [loadKimiCliToken(): KimiToken | null]; [null] is [VNull]. *)
Definition loadKimiCliToken (fs : filesystem) : completion value :=
  try_catch
    (if negb (existsSync fs KIMI_CLI_CREDENTIALS_PATH) then Normal VNull
     else
       raw <- readFileSync fs KIMI_CLI_CREDENTIALS_PATH ;;
       data <- JSON_parse raw ;;
       access <- get_prop data "access_token" ;;
       if truthy access then
         refresh <- get_prop data "refresh_token" ;;
         if truthy refresh then Normal data else Normal VNull
       else Normal VNull)
    (fun _ => Normal VNull).

(** [saveKimiCliToken(token): void]; the result is the file system left
    behind. *)
Definition saveKimiCliToken (fs : filesystem) (token : KimiToken)
  : completion filesystem :=
  try_catch
    (_ <- mkdirSync fs KIMI_CLI_CREDENTIALS_PATH ;;
     writeFileSync fs KIMI_CLI_CREDENTIALS_PATH (JSON_stringify token))
    (fun _ => Normal fs).

(** [Date.now()], an integer number of milliseconds. *)
Definition Date_now (now : Z) : num := num_of_Z now.

(** [Date.now() / 1000 + margin] *)
Definition seconds_from (now : Z) (margin : Q) : num :=
  num_add (num_div (Date_now now) (Fin 1000)) (Fin margin).

Section Broker.
Variable E : Engine.

(** The test of lines 109-114: [existing && existing.type === "oauth" &&
    existing.access && existing.expires > Date.now()]. *)
Definition already_seeded (existing : value) (now : Z) : completion bool :=
  if negb (truthy existing) then Normal false
  else
    type <- get_prop existing "type" ;;
    if negb (strict_eq type (VStr "oauth")) then Normal false
    else
      access <- get_prop existing "access" ;;
      if negb (truthy access) then Normal false
      else
        expires <- get_prop existing "expires" ;;
        Normal (num_gtb (ToNumber E expires) (Date_now now)).

(** The object literal of lines 119-124. *)
Definition seeded_entry (refresh access expires_at : value) : value :=
  VObj [ ("type", VStr "oauth");
         ("refresh", refresh);
         ("access", access);
         ("expires", VNum (num_mul (ToNumber E expires_at) (Fin 1000))) ].

(** The body of the [try] block (lines 100-133). *)
Definition seed_attempt (fs : filesystem)
  (token access_token expires_at : value) (now' : Z)
  : completion (bool * filesystem) :=
  authData <-
    (if existsSync fs PI_AUTH_PATH
     then raw <- readFileSync fs PI_AUTH_PATH ;; JSON_parse raw
     else Normal (VObj [])) ;;
  existing <- get_prop authData PROVIDER_NAME ;;
  valid <- already_seeded existing now' ;;
  if valid then Normal (true, fs)
  else
    refresh_token <- get_prop token "refresh_token" ;;
    authData' <- set_prop authData PROVIDER_NAME
                   (seeded_entry refresh_token access_token expires_at) ;;
    _ <- mkdirSync fs PI_AUTH_PATH ;;
    fs' <- writeFileSync fs PI_AUTH_PATH (JSON_stringify authData') ;;
    Normal (true, fs').

(** [seedPiAuthFromKimiCli(): boolean].  [now] and [now'] are what the two
    calls of [Date.now()] return (lines 97 and 113). *)
Definition seedPiAuthFromKimiCli (fs : filesystem) (now now' : Z)
  : completion (bool * filesystem) :=
  token <- loadKimiCliToken fs ;;
  if negb (truthy token) then Normal (false, fs)
  else
    access_token <- get_prop token "access_token" ;;
    if negb (truthy access_token) then Normal (false, fs)
    else
      expires_at <- get_prop token "expires_at" ;;
      if num_ltb (ToNumber E expires_at) (seconds_from now 60)
      then Normal (false, fs)
      else
        try_catch (seed_attempt fs token access_token expires_at now')
                  (fun _ => Normal (false, fs)).
End Broker.

(* ================================================================== *)
(** ** OAuth device flow *)
(* ================================================================== *)

Record DeviceAuthorization : Type := {
  user_code : string;
  device_code : string;
  verification_uri : string;
  verification_uri_complete : string;
  expires_in : option num;        (* [number | null] *)
  interval : num
}.

(** What [fetch] comes back with: a rejection, or a response with its
    status, its raw text and what [response.json()] makes of that text. *)
Inductive http : Type :=
| Rejected
| Response (status : Z) (raw : string) (body : text).

(** One exchange with the server: the reply, and what [Date.now()] returns
    once the reply has been decoded. *)
Record exchange : Type := {
  reply : http;
  received_at : Z
}.

(** The form bodies posted to auth.kimi.com (the client id is constant). *)
Inductive request : Type :=
| DeviceAuthorizationRequest
| DeviceCodeGrant (code : string)
| RefreshGrant (refresh : string).

(** What a run does to the outside world, in order. *)
Inductive event : Type :=
| Sleep (ms : num)               (* [setTimeout(resolve, ms)] awaited *)
| Fetch (r : request).

Definition response_ok (status : Z) : bool :=
  (200 <=? status)%Z && (status <=? 299)%Z.

Definition DEVICE_CODE_EXPIRED : exn :=
  Error "Device code expired. Please try again.".
Definition LOGIN_TIMED_OUT : exn :=
  Error "Login timed out. Please try again.".

Section DeviceFlow.
Variable E : Engine.

Definition requestDeviceAuthorization (r : http)
  : completion DeviceAuthorization :=
  match r with
  | Rejected => Throw FetchError
  | Response status raw body =>
      if negb (response_ok status)
      then Throw (Error ("Device authorization failed ("
                         ++ number_to_string E (num_of_Z status)
                         ++ "): " ++ raw))
      else
        data <- JSON_parse body ;;
        user <- get_prop data "user_code" ;;
        device <- get_prop data "device_code" ;;
        uri <- get_prop data "verification_uri" ;;
        complete <- get_prop data "verification_uri_complete" ;;
        expires <- get_prop data "expires_in" ;;
        every <- get_prop data "interval" ;;
        Normal {| user_code := ToString E user;
                  device_code := ToString E device;
                  verification_uri :=
                    ToString E (js_or uri (VStr EmptyString));
                  verification_uri_complete := ToString E complete;
                  expires_in :=
                    if truthy expires then Some (ToNumber E expires)
                    else None;
                  interval :=
                    Math_max (ToNumber E (js_or every (VNum (Fin 5))))
                             (Fin 1) |}
  end.

(** The object literal both token-returning operations build (lines
    201-208 and 240-247) from the decoded body and the current time. *)
Definition token_of_response (data : value) (now : Z)
  : completion KimiToken :=
  lifetime <- get_prop data "expires_in" ;;
  let expiresIn := ToNumber E (js_or lifetime (VNum (Fin 3600))) in
  access <- get_prop data "access_token" ;;
  refresh <- get_prop data "refresh_token" ;;
  scope <- get_prop data "scope" ;;
  type <- get_prop data "token_type" ;;
  Normal (VObj
    [ ("access_token", VStr (ToString E access));
      ("refresh_token", VStr (ToString E refresh));
      ("expires_at",
        VNum (num_add (num_div (Date_now now) (Fin 1000)) expiresIn));
      ("scope", VStr (ToString E (js_or scope (VStr "kimi-code"))));
      ("token_type", VStr (ToString E (js_or type (VStr "Bearer")))) ]).

(** [auth.expires_in ? Math.ceil(auth.expires_in / auth.interval) : 120] *)
Definition maxAttempts (auth : DeviceAuthorization) : num :=
  match expires_in auth with
  | Some n =>
      if num_truthy n then Math_ceil (num_div n (interval auth))
      else Fin 120
  | None => Fin 120
  end.

(** One turn of the loop after the sleep and the request: [Normal (Some
    token)] returns, [Normal None] falls through to the next turn. *)
Definition poll_once (x : exchange) : completion (option KimiToken) :=
  match reply x with
  | Rejected => Throw FetchError
  | Response status _ body =>
      data <- JSON_parse body ;;
      accepted <-
        (if (status =? 200)%Z
         then access <- get_prop data "access_token" ;;
              Normal (truthy access)
         else Normal false) ;;
      if accepted
      then token <- token_of_response data (received_at x) ;;
           Normal (Some token)
      else
        error <- get_prop data "error" ;;
        if String.eqb (ToString E (js_or error (VStr EmptyString)))
                      "expired_token"
        then Throw DEVICE_CODE_EXPIRED
        else Normal None
  end.

Definition poll_events (auth : DeviceAuthorization) : list event :=
  [ Sleep (num_mul (interval auth) (Fin 1000));
    Fetch (DeviceCodeGrant (device_code auth)) ].

(** [for (let i = 0; i < maxAttempts; i++) { ... }] followed by the
    final [throw].  Each test of the loop condition spends one unit of
    [fuel]; [None] means the loop is still running when it is spent.
    [net i] is the exchange of the request made with counter [i]. *)
Fixpoint poll_loop (fuel : nat) (auth : DeviceAuthorization)
  (net : nat -> exchange) (bound : num) (i : nat)
  : option (completion KimiToken * list event) :=
  match fuel with
  | O => None
  | S fuel' =>
      if num_ltb (num_of_nat i) bound
      then
        match poll_once (net i) with
        | Normal (Some token) => Some (Normal token, poll_events auth)
        | Throw e => Some (Throw e, poll_events auth)
        | Normal None =>
            match poll_loop fuel' auth net bound (S i) with
            | Some (result, later) =>
                Some (result, (poll_events auth ++ later)%list)
            | None => None
            end
        end
      else Some (Throw LOGIN_TIMED_OUT, [])
  end.

Definition pollForToken (fuel : nat) (auth : DeviceAuthorization)
  (net : nat -> exchange)
  : option (completion KimiToken * list event) :=
  poll_loop fuel auth net (maxAttempts auth) 0.

(** [refreshAccessToken], from the reply onwards. *)
Definition refresh_response (x : exchange) : completion KimiToken :=
  match reply x with
  | Rejected => Throw FetchError
  | Response status _ body =>
      data <- JSON_parse body ;;
      if negb (response_ok status)
      then
        description <- get_prop data "error_description" ;;
        Throw (Error (ToString E
          (js_or description
             (VStr ("Token refresh failed ("
                    ++ number_to_string E (num_of_Z status) ++ ")")))))
      else token_of_response data (received_at x)
  end.

(** [refreshAccessToken(refreshToken)]: one request, then the reply. *)
Definition refreshAccessToken (refreshToken : value) (x : exchange)
  : completion KimiToken * list event :=
  (refresh_response x, [Fetch (RefreshGrant (ToString E refreshToken))]).
End DeviceFlow.

Definition requests (log : list event) : list request :=
  flat_map (fun e => match e with Fetch r => [r] | Sleep _ => [] end) log.

(* ================================================================== *)
(** ** Pi OAuth adapter *)
(* ================================================================== *)

Record OAuthCredentials : Type := {
  refresh : value;
  access : value;
  expires : num
}.

Section Adapter.
Variable E : Engine.

(** [{ refresh: t.refresh_token, access: t.access_token,
       expires: t.expires_at * 1000 }] *)
Definition credentials_of (token : KimiToken)
  : completion OAuthCredentials :=
  r <- get_prop token "refresh_token" ;;
  a <- get_prop token "access_token" ;;
  e <- get_prop token "expires_at" ;;
  Normal {| refresh := r; access := a;
            expires := num_mul (ToNumber E e) (Fin 1000) |}.

(** The test of lines 299-303. *)
Definition disk_is_fresher (diskToken : value)
  (credentials : OAuthCredentials) (now : Z) : completion bool :=
  if negb (truthy diskToken) then Normal false
  else
    a <- get_prop diskToken "access_token" ;;
    if strict_eq a (access credentials) then Normal false
    else
      e <- get_prop diskToken "expires_at" ;;
      Normal (num_gtb (ToNumber E e) (seconds_from now 300)).

(** [refreshKimiCoderToken(credentials)] up to its [await]: either it has
    already settled, or a refresh request is on its way.  [now] is
    [Date.now()] at line 302. *)
Inductive begun : Type :=
| Settled (c : completion OAuthCredentials)
| Awaiting (r : request).

Definition refreshKimiCoderToken_begin (fs : filesystem)
  (credentials : OAuthCredentials) (now : Z) : begun :=
  match
    (diskToken <- loadKimiCliToken fs ;;
     fresher <- disk_is_fresher diskToken credentials now ;;
     Normal (diskToken, fresher))
  with
  | Throw e => Settled (Throw e)
  | Normal (diskToken, true) => Settled (credentials_of diskToken)
  | Normal (_, false) =>
      Awaiting (RefreshGrant (ToString E (refresh credentials)))
  end.

(** ... and from the reply of the refresh endpoint onwards. *)
Definition refreshKimiCoderToken_resume (fs : filesystem) (x : exchange)
  : completion OAuthCredentials * filesystem :=
  match refresh_response E x with
  | Throw e => (Throw e, fs)
  | Normal token =>
      match saveKimiCliToken fs token with
      | Throw e => (Throw e, fs)
      | Normal fs' => (credentials_of token, fs')
      end
  end.

(** The whole call when nothing else runs during the [await]: the result,
    the file system left behind and the log of what was done.  [x] is the
    exchange the refresh endpoint would have with this caller. *)
Definition refreshKimiCoderToken (fs : filesystem)
  (credentials : OAuthCredentials) (now : Z) (x : exchange)
  : completion OAuthCredentials * filesystem * list event :=
  match refreshKimiCoderToken_begin fs credentials now with
  | Settled c => (c, fs, [])
  | Awaiting r =>
      match refreshKimiCoderToken_resume fs x with
      | (c, fs') => (c, fs', [Fetch r])
      end
  end.

(** [getApiKey(credentials)] *)
Definition getApiKey (credentials : OAuthCredentials) : value :=
  access credentials.
End Adapter.

(* ================================================================== *)
(** ** Extension entry point and its handlers *)
(* ================================================================== *)

(** Who is waiting for a reply of the refresh endpoint. *)
Inductive caller : Type :=
| session_start_handler (hasUI : bool)
| interval_callback
| host_refresh.

Record refresh_call : Type := {
  waiting : caller;
  posted : request
}.

(** The state the closure of the default export and the process share. *)
Record extension : Type := {
  files : filesystem;
  KIMI_CODER_API_KEY : option string;   (* [process.env.KIMI_CODER_API_KEY] *)
  seeded : bool;
  refreshInterval : option nat;         (* the handle, or [null] *)
  intervals : list nat;                 (* set by [setInterval], not cleared *)
  next_handle : nat;
  in_flight : list refresh_call;        (* awaited [refreshAccessToken]s *)
  notices : list string                 (* [ctx.ui.notify] *)
}.

Definition drop_nth {A : Type} (k : nat) (l : list A) : list A :=
  (firstn k l ++ skipn (S k) l)%list.

Definition env_truthy (v : option string) : bool :=
  match v with
  | Some s => negb (String.eqb s EmptyString)
  | None => false
  end.

Section Extension.
Variable E : Engine.

(** The test of line 337 and of lines 259-263:
    [token && token.access_token && token.expires_at > Date.now()/1000 + 60]. *)
Definition importable (token : value) (now : Z) : completion bool :=
  if negb (truthy token) then Normal false
  else
    a <- get_prop token "access_token" ;;
    if negb (truthy a) then Normal false
    else
      e <- get_prop token "expires_at" ;;
      Normal (num_gtb (ToNumber E e) (seconds_from now 60)).

(** The body of the default export up to [registerProvider].  [now] is
    [Date.now()] at line 337, [now1] and [now2] the two readings inside
    [seedPiAuthFromKimiCli]. *)
Definition activate (fs : filesystem) (env : option string)
  (now now1 now2 : Z) : completion extension :=
  imported <-
    (if negb (env_truthy env)
     then
       token <- loadKimiCliToken fs ;;
       ok <- importable token now ;;
       if ok
       then a <- get_prop token "access_token" ;;
            Normal (Some (ToString E a), true)
       else Normal (env, false)
     else Normal (env, false)) ;;
  seed <- seedPiAuthFromKimiCli E fs now1 now2 ;;
  Normal {| files := snd seed;
            KIMI_CODER_API_KEY := fst imported;
            seeded := snd imported;
            refreshInterval := None;
            intervals := [];
            next_handle := 0;
            in_flight := [];
            notices := [] |}.

(** Lines 415-418 and 444-447: the refresh token to use when the stored
    token has fewer than 300 seconds left, [None] when there is nothing to
    do. *)
Definition due_for_refresh (fs : filesystem) (now : Z)
  : completion (option value) :=
  token <- loadKimiCliToken fs ;;
  if negb (truthy token) then Normal None
  else
    r <- get_prop token "refresh_token" ;;
    if negb (truthy r) then Normal None
    else
      e <- get_prop token "expires_at" ;;
      let remainingSecs :=
        num_sub (ToNumber E e) (num_div (Date_now now) (Fin 1000)) in
      if num_ltb remainingSecs (Fin 300) then Normal (Some r)
      else Normal None.

Definition with_notice (hasUI : bool) (text : string) (s : extension)
  : extension :=
  {| files := files s;
     KIMI_CODER_API_KEY := KIMI_CODER_API_KEY s;
     seeded := seeded s;
     refreshInterval := refreshInterval s;
     intervals := intervals s;
     next_handle := next_handle s;
     in_flight := in_flight s;
     notices := if hasUI then (notices s ++ [text])%list else notices s |}.

Definition with_in_flight (calls : list refresh_call) (s : extension)
  : extension :=
  {| files := files s;
     KIMI_CODER_API_KEY := KIMI_CODER_API_KEY s;
     seeded := seeded s;
     refreshInterval := refreshInterval s;
     intervals := intervals s;
     next_handle := next_handle s;
     in_flight := calls;
     notices := notices s |}.

Definition with_token (fs : filesystem) (key : option string)
  (s : extension) : extension :=
  {| files := fs;
     KIMI_CODER_API_KEY := key;
     seeded := seeded s;
     refreshInterval := refreshInterval s;
     intervals := intervals s;
     next_handle := next_handle s;
     in_flight := in_flight s;
     notices := notices s |}.

(** Starts [refreshAccessToken(token.refresh_token)] for [who] when the
    stored token is due; the handler then waits for the reply. *)
Definition start_refresh_if_due (who : caller) (now : Z) (s : extension)
  : extension :=
  match due_for_refresh (files s) now with
  | Normal (Some r) =>
      with_in_flight
        (in_flight s ++ [ {| waiting := who;
                             posted := RefreshGrant (ToString E r) |} ])%list
        s
  | Normal None | Throw _ => s
  end.

(** The [session_start] handler up to its [await]. *)
Definition on_session_start (hasUI : bool) (now : Z) (s : extension)
  : extension :=
  start_refresh_if_due (session_start_handler hasUI) now
    (with_notice (seeded s && hasUI)
       "Kimi Coder: using kimi-cli credentials" s).

(** The [agent_start] handler. *)
Definition on_agent_start (s : extension) : extension :=
  match refreshInterval s with
  | Some _ => s
  | None =>
      {| files := files s;
         KIMI_CODER_API_KEY := KIMI_CODER_API_KEY s;
         seeded := seeded s;
         refreshInterval := Some (next_handle s);
         intervals := (intervals s ++ [next_handle s])%list;
         next_handle := S (next_handle s);
         in_flight := in_flight s;
         notices := notices s |}
  end.

(** The callback given to [setInterval], up to its [await]. *)
Definition on_interval (now : Z) (s : extension) : extension :=
  start_refresh_if_due interval_callback now s.

(** The [session_shutdown] handler. *)
Definition on_session_shutdown (s : extension) : extension :=
  match refreshInterval s with
  | None => s
  | Some h =>
      {| files := files s;
         KIMI_CODER_API_KEY := KIMI_CODER_API_KEY s;
         seeded := seeded s;
         refreshInterval := None;
         intervals := filter (fun h' => negb (Nat.eqb h h')) (intervals s);
         next_handle := next_handle s;
         in_flight := in_flight s;
         notices := notices s |}
  end.

(** Lines 420-422 and 449-451 after the [await]: save the new token and
    export its access token. *)
Definition adopt (refreshed : KimiToken) (s : extension)
  : completion extension :=
  fs' <- saveKimiCliToken (files s) refreshed ;;
  a <- get_prop refreshed "access_token" ;;
  Normal (with_token fs' (Some (ToString E a)) s).

(** What the caller [who] does once its reply [x] is there. *)
Definition settle (who : caller) (x : exchange) (s : extension)
  : extension :=
  match who with
  | session_start_handler hasUI =>
      match (refreshed <- refresh_response E x ;; adopt refreshed s) with
      | Normal s' => with_notice hasUI "Kimi Coder: token refreshed" s'
      | Throw _ =>
          with_notice hasUI
            "Kimi Coder: token refresh failed, use /login kimi-coder" s
      end
  | interval_callback =>
      match (refreshed <- refresh_response E x ;; adopt refreshed s) with
      | Normal s' => s'
      | Throw _ => s
      end
  | host_refresh =>
      with_token (snd (refreshKimiCoderToken_resume E (files s) x))
        (KIMI_CODER_API_KEY s) s
  end.

(** What can happen to a loaded extension. *)
Inductive input : Type :=
| session_start (hasUI : bool) (now : Z)
| agent_start
| interval_fires (handle : nat) (now : Z)
| session_shutdown
| host_calls_refresh (credentials : OAuthCredentials) (now : Z)
| reply_arrives (k : nat) (x : exchange)    (* for the k-th call in flight *)
| companion_writes (f : file).              (* kimi-cli rewrites its file *)

(** One event-loop turn; [None] when the input cannot happen in [s]. *)
Definition step (s : extension) (i : input) : option extension :=
  match i with
  | session_start hasUI now => Some (on_session_start hasUI now s)
  | agent_start => Some (on_agent_start s)
  | interval_fires h now =>
      if existsb (Nat.eqb h) (intervals s) then Some (on_interval now s)
      else None
  | session_shutdown => Some (on_session_shutdown s)
  | host_calls_refresh credentials now =>
      match refreshKimiCoderToken_begin E (files s) credentials now with
      | Settled _ => Some s
      | Awaiting r =>
          Some (with_in_flight
                  (in_flight s ++ [ {| waiting := host_refresh;
                                       posted := r |} ])%list s)
      end
  | reply_arrives k x =>
      match nth_error (in_flight s) k with
      | Some call =>
          Some (settle (waiting call) x
                  (with_in_flight (drop_nth k (in_flight s)) s))
      | None => None
      end
  | companion_writes f =>
      Some (with_token (put_file (files s) KIMI_CLI_CREDENTIALS_PATH f)
              (KIMI_CODER_API_KEY s) s)
  end.

Fixpoint run (s : extension) (inputs : list input) : option extension :=
  match inputs with
  | [] => Some s
  | i :: rest =>
      match step s i with
      | Some s' => run s' rest
      | None => None
      end
  end.
End Extension.

(* ================================================================== *)
(** ** Vocabulary of the properties *)
(* ================================================================== *)

(** [data.k] is there and truthy. *)
Definition has_truthy (data : value) (k : string) : bool :=
  match get_prop data k with
  | Normal x => truthy x
  | Throw _ => false
  end.

(** The entry of provider [k] in a broker-store file. *)
Definition broker_entry (f : file) (k : string) : option json :=
  match f with
  | Holds (Encodes (JObj members)) => assoc k members
  | _ => None
  end.

(** The providers' entries [seedPiAuthFromKimiCli] starts from: none when
    there is no file, the members when the file holds a JSON object. *)
Definition broker_members (f : file) : option (list (string * json)) :=
  match f with
  | Missing => Some []
  | Holds (Encodes (JObj members)) => Some members
  | _ => None
  end.

(** What one run of the [try] block may change: nothing but the broker
    file, and there nothing but an assignment to the provider's key. *)
Definition at_most_upserted (fs fs' : filesystem) : Prop :=
  kimi_cli_credentials fs' = kimi_cli_credentials fs
  /\ kimi_cli_writable fs' = kimi_cli_writable fs
  /\ pi_auth_writable fs' = pi_auth_writable fs
  /\ (pi_auth fs' = pi_auth fs
      \/ exists members entry,
           broker_members (pi_auth fs) = Some members
           /\ pi_auth fs'
              = Holds (Encodes (JObj (assoc_set PROVIDER_NAME entry members)))).

(** The provider's entry is one [seedPiAuthFromKimiCli] leaves alone: the
    test of lines 109-114 on the entry as parsed. *)
Definition still_valid (E : Engine) (entry : option json) (now : Z) : bool :=
  match entry with
  | Some x =>
      match already_seeded E (of_json x) now with
      | Normal b => b
      | Throw _ => false
      end
  | None => false
  end.

(** [data.k], [undefined] where the access would throw. *)
Definition field (data : value) (k : string) : value :=
  match get_prop data k with
  | Normal x => x
  | Throw _ => VUndef
  end.

(** The companion store holds a token [disk] whose access token is not
    the cached one and that stays valid for more than 300 seconds. *)
Definition fresher_on_disk (E : Engine) (fs : filesystem)
  (credentials : OAuthCredentials) (now : Z) (disk : value) : Prop :=
  loadKimiCliToken fs = Normal disk
  /\ truthy disk = true
  /\ strict_eq (field disk "access_token") (access credentials) = false
  /\ num_gtb (ToNumber E (field disk "expires_at")) (seconds_from now 300)
     = true.

(** The credentials handed to pi for a token: the same two strings, the
    expiry in milliseconds. *)
Definition credentials_for (E : Engine) (token : value) : OAuthCredentials :=
  {| refresh := field token "refresh_token";
     access := field token "access_token";
     expires := num_mul (ToNumber E (field token "expires_at")) (Fin 1000) |}.

(** A success of the token endpoint: HTTP 200 with an access token. *)
Definition token_response (r : http) : bool :=
  match r with
  | Response status _ (Encodes j) =>
      (status =? 200)%Z && has_truthy (of_json j) "access_token"
  | _ => false
  end.

(** An error body of the token endpoint with error code [code]. *)
Definition error_response (code : string) (r : http) : bool :=
  match r with
  | Response _ _ (Encodes j) =>
      negb (token_response r)
      && match get_prop (of_json j) "error" with
         | Normal (VStr c) => String.eqb c code
         | _ => false
         end
  | _ => false
  end.

Definition pending_response (r : http) : bool :=
  error_response "authorization_pending" r || error_response "slow_down" r.

(** Any other answer the loop polls on after: a decoded body that is not
    [null], is no token response and whose error code is not
    [expired_token]. *)
Definition falls_through (E : Engine) (r : http) : bool :=
  match r with
  | Response _ _ (Encodes j) =>
      negb (token_response r)
      && match get_prop (of_json j) "error" with
         | Normal error =>
             negb (String.eqb
                     (ToString E (js_or error (VStr EmptyString)))
                     "expired_token")
         | Throw _ => false
         end
  | _ => false
  end.

(** The log of [n] turns of the polling loop. *)
Definition poll_log (auth : DeviceAuthorization) (n : nat) : list event :=
  List.concat (repeat (poll_events auth) n).

(** How many times [i < bound] holds for [i = 0, 1, 2, ...]; [None] when
    it always does. *)
Definition attempts_of (bound : num) : option nat :=
  match bound with
  | NaN | Inf true => Some O
  | Inf false => None
  | Fin q => Some (Z.to_nat (Qceiling q))
  end.

(** A run that ends whatever the server answers, after at most [M]
    requests, and with the login-timeout error when all [M] answers fell
    through. *)
Definition ends_within (E : Engine) (auth : DeviceAuthorization)
  (net : nat -> exchange) (M : nat) : Prop :=
  forall fuel, (M < fuel)%nat ->
    exists result log,
      pollForToken E fuel auth net = Some (result, log)
      /\ (List.length (requests log) <= M)%nat
      /\ ((forall i, (i < M)%nat -> falls_through E (reply (net i)) = true) ->
          result = Throw LOGIN_TIMED_OUT
          /\ List.length (requests log) = M).

(** The relative lifetime a token response grants: [expires_in], or 3600
    seconds when it is omitted or falsy. *)
Definition lifetime (E : Engine) (data : value) : num :=
  match get_prop data "expires_in" with
  | Normal v => if truthy v then ToNumber E v else Fin 3600
  | Throw _ => Fin 3600
  end.

(** The token a response body [data] decoded at millisecond [now] yields:
    the strings of the body, and an absolute expiry [lifetime] seconds after
    [now]. *)
Definition token_built (E : Engine) (data : value) (now : Z) : KimiToken :=
  VObj [ ("access_token", VStr (ToString E (field data "access_token")));
         ("refresh_token", VStr (ToString E (field data "refresh_token")));
         ("expires_at",
           VNum (num_add (num_div (Date_now now) (Fin 1000))
                         (lifetime E data)));
         ("scope",
           VStr (ToString E (js_or (field data "scope") (VStr "kimi-code"))));
         ("token_type",
           VStr (ToString E (js_or (field data "token_type")
                                   (VStr "Bearer")))) ].

(** The refresh call the interval callback starts for refresh token [r]. *)
Definition interval_call (E : Engine) (r : value) : refresh_call :=
  {| waiting := interval_callback; posted := RefreshGrant (ToString E r) |}.

(** The stored token [token] is due: it has a truthy refresh token and
    fewer than 300 seconds left at millisecond [now]. *)
Definition due (E : Engine) (fs : filesystem) (now : Z) (token : value)
  : Prop :=
  loadKimiCliToken fs = Normal token
  /\ has_truthy token "refresh_token" = true
  /\ num_ltb (num_sub (ToNumber E (field token "expires_at"))
                      (num_div (Date_now now) (Fin 1000)))
             (Fin 300) = true.

(** The refresh timers are the one [refreshInterval] holds, if any. *)
Definition one_timer (s : extension) : Prop :=
  intervals s = match refreshInterval s with
                | Some h => [h]
                | None => []
                end.

(* ================================================================== *)
(** ** An engine and data to run the model on *)
(* ================================================================== *)

Definition decimal_of_Z (z : Z) : string :=
  NilZero.string_of_int (Z.to_int z).

(** The conversions on the fragment the examples below stay in: unsigned
    decimal integer literals and the empty string, integral numbers, plain
    objects and arrays.  Other strings count as not numeric and a fraction
    prints as its integer part. *)
Definition sample_string_to_number (s : string) : num :=
  match NilEmpty.uint_of_string s with
  | Some u => num_of_Z (Z.of_uint u)
  | None => NaN
  end.

Definition sample_number_to_string (n : num) : string :=
  match n with
  | NaN => "NaN"
  | Inf false => "Infinity"
  | Inf true => "-Infinity"
  | Fin q => decimal_of_Z (Qnum q / Zpos (Qden q))
  end.

Fixpoint sample_element_to_string (v : value) : string :=
  match v with
  | VUndef | VNull => EmptyString
  | VBool b => if b then "true" else "false"
  | VNum n => sample_number_to_string n
  | VStr s => s
  | VArr items => String.concat "," (map sample_element_to_string items)
  | VObj _ => "[object Object]"
  end.

Definition sample_object_to_string (v : value) : string :=
  match v with
  | VArr _ => sample_element_to_string v
  | _ => "[object Object]"
  end.

Definition sample_engine : Engine :=
  {| string_to_number := sample_string_to_number;
     number_to_string := sample_number_to_string;
     object_to_string := sample_object_to_string |}.

(** A credentials file of kimi-cli: the token expires at second 5000. *)
Definition sample_token : json :=
  JObj [ ("access_token", JStr "disk-access");
         ("refresh_token", JStr "disk-refresh");
         ("expires_at", JNum 5000);
         ("scope", JStr "kimi-code");
         ("token_type", JStr "Bearer") ].

Definition sample_files (auth : file) : filesystem :=
  {| kimi_cli_credentials := Holds (Encodes sample_token);
     kimi_cli_writable := true;
     pi_auth := auth;
     pi_auth_writable := true |}.

(** An auth.json with another provider's entry. *)
Definition other_provider : file :=
  Holds (Encodes (JObj [ ("other-provider",
                          JObj [ ("type", JStr "api_key");
                                 ("key", JStr "sk-1") ]) ])).


Definition sample_credentials : OAuthCredentials :=
  {| refresh := VStr "old-refresh";
     access := VStr "old-access";
     expires := Fin 2000000 |}.

Definition body (members : list (string * json)) (status : Z) : http :=
  Response status EmptyString (Encodes (JObj members)).

Definition pending_reply : http :=
  body [ ("error", JStr "authorization_pending") ] 400.

Definition expired_reply : http :=
  body [ ("error", JStr "expired_token") ] 400.

Definition token_reply : http :=
  body [ ("access_token", JStr "new-access");
         ("refresh_token", JStr "new-refresh");
         ("expires_in", JNum 900) ] 200.

(** A server that answers pending [n] times and then [last]; each reply is
    decoded at millisecond [1000000 + 5000 * (i + 1)]. *)
Definition pending_then (n : nat) (last : http) (i : nat) : exchange :=
  {| reply := if Nat.ltb i n then pending_reply else last;
     received_at := (1000000 + 5000 * Z.of_nat (S i))%Z |}.

Definition sample_auth (lifetime : option num) (every : num)
  : DeviceAuthorization :=
  {| user_code := "ABCD-1234";
     device_code := "device-1";
     verification_uri := "https://auth.kimi.com/device";
     verification_uri_complete := "https://auth.kimi.com/device?code=ABCD-1234";
     expires_in := lifetime;
     interval := every |}.

(** A credentials file with nothing but the two tokens. *)
Definition bare_token : json :=
  JObj [ ("access_token", JStr "a"); ("refresh_token", JStr "r") ].

Definition only_credentials (j : json) : filesystem :=
  {| kimi_cli_credentials := Holds (Encodes j);
     kimi_cli_writable := true;
     pi_auth := Missing;
     pi_auth_writable := true |}.

(** A server that never stops answering pending. *)
Definition always_pending (i : nat) : exchange :=
  {| reply := pending_reply; received_at := 0 |}.

(** A token response that grants a lifetime of zero seconds. *)
Definition zero_lifetime_reply : http :=
  body [ ("access_token", JStr "new-access");
         ("refresh_token", JStr "new-refresh");
         ("expires_in", JNum 0) ] 200.

(** A device authorization response whose [expires_in] is the string "0". *)
Definition zero_lifetime_authorization : http :=
  body [ ("user_code", JStr "ABCD-1234");
         ("device_code", JStr "device-1");
         ("verification_uri_complete", JStr "https://auth.kimi.com/device");
         ("expires_in", JStr "0");
         ("interval", JNum 5) ] 200.


(* ================================================================== *)
(** ** Login through the adapter *)
(* ================================================================== *)

(** What a login does, in order: the effects of the device flow, and the
    call of [callbacks.onDeviceCode]. *)
Inductive login_event : Type :=
| Did (e : event)
| OnDeviceCode (userCode verificationUri : string).

(** [a || b] on strings. *)
Definition string_or (a b : string) : string :=
  if String.eqb a EmptyString then b else a.

Section Login.
Variable E : Engine.

(** Lines 272-279: the authorization request has been answered with
    [auth] and the device code is handed to pi. *)
Definition device_code_shown (auth : DeviceAuthorization)
  : list login_event :=
  [ Did (Fetch DeviceAuthorizationRequest);
    OnDeviceCode (user_code auth)
      (string_or (verification_uri_complete auth) (verification_uri auth)) ].

(** [loginKimiCoder(callbacks)].  [now] is [Date.now()] at line 262,
    [authorization] what the device authorization endpoint answers, [net]
    the exchanges of the token endpoint; [None] when the polling loop is
    still running after [fuel] tests of its condition. *)
Definition loginKimiCoder (fuel : nat) (fs : filesystem) (now : Z)
  (authorization : http) (net : nat -> exchange)
  : option (completion OAuthCredentials * filesystem * list login_event) :=
  match
    (existing <- loadKimiCliToken fs ;;
     valid <- importable E existing now ;;
     Normal (existing, valid))
  with
  | Throw e => Some (Throw e, fs, [])
  | Normal (existing, true) => Some (credentials_of E existing, fs, [])
  | Normal (_, false) =>
      match requestDeviceAuthorization E authorization with
      | Throw e => Some (Throw e, fs, [Did (Fetch DeviceAuthorizationRequest)])
      | Normal auth =>
          match pollForToken E fuel auth net with
          | None => None
          | Some (Throw e, log) =>
              Some (Throw e, fs, (device_code_shown auth ++ map Did log)%list)
          | Some (Normal token, log) =>
              match saveKimiCliToken fs token with
              | Throw e =>
                  Some (Throw e, fs,
                        (device_code_shown auth ++ map Did log)%list)
              | Normal fs' =>
                  Some (credentials_of E token, fs',
                        (device_code_shown auth ++ map Did log)%list)
              end
          end
      end
  end.
End Login.

(* ================================================================== *)
(** ** Vocabulary of the further properties *)
(* ================================================================== *)

(** Nothing of the file system but the companion credentials file
    differs. *)
Definition only_credentials_written (fs fs' : filesystem) : Prop :=
  pi_auth fs' = pi_auth fs
  /\ pi_auth_writable fs' = pi_auth_writable fs
  /\ kimi_cli_writable fs' = kimi_cli_writable fs.

(** A broker file [seedPiAuthFromKimiCli] cannot work with: unreadable,
    not JSON, or the JSON [null]. *)
Definition unusable_broker_file (f : file) : bool :=
  match f with
  | Unreadable | Holds Malformed | Holds (Encodes JNull) => true
  | _ => false
  end.

(** A server that answers pending [n] times and then no more: the next
    [fetch] is rejected. *)
Definition pending_then_unreachable (n : nat) (i : nat) : exchange :=
  {| reply := if Nat.ltb i n then pending_reply else Rejected;
     received_at := 0 |}.

(** A refresh answered 400 with an error description. *)
Definition invalid_grant_reply : http :=
  body [ ("error", JStr "invalid_grant");
         ("error_description", JStr "invalid_grant") ] 400.

(** A device authorization response with nothing but the two codes. *)
Definition bare_authorization : http :=
  body [ ("user_code", JStr "ABCD-1234");
         ("device_code", JStr "device-1") ] 200.

(** A device authorization response of the usual shape: valid for 900
    seconds, to be polled every 5 seconds. *)
Definition usual_authorization : http :=
  body [ ("user_code", JStr "ABCD-1234");
         ("device_code", JStr "device-1");
         ("verification_uri", JStr "https://auth.kimi.com/device");
         ("verification_uri_complete",
           JStr "https://auth.kimi.com/device?code=ABCD-1234");
         ("expires_in", JNum 900);
         ("interval", JNum 5) ] 200.

(** A credentials file whose token has no [expires_at]. *)
Definition token_without_expiry : filesystem :=
  {| kimi_cli_credentials := Holds (Encodes bare_token);
     kimi_cli_writable := true;
     pi_auth := other_provider;
     pi_auth_writable := true |}.

(** A loaded extension whose timer has fired once, the sample token being
    due: one refresh is in flight; the user had exported a key. *)
Definition one_refresh_in_flight : extension :=
  {| files := sample_files other_provider;
     KIMI_CODER_API_KEY := Some "exported-by-user";
     seeded := false;
     refreshInterval := Some 0%nat;
     intervals := [0%nat];
     next_handle := 1%nat;
     in_flight := [ {| waiting := interval_callback;
                       posted := RefreshGrant "disk-refresh" |} ];
     notices := [] |}.

(** A server that answers [slow_down] [n] times and then [last]. *)
Definition slow_down_then (n : nat) (last : http) (i : nat) : exchange :=
  {| reply := if Nat.ltb i n
              then body [ ("error", JStr "slow_down") ] 400
              else last;
     received_at := (1000000 + 5000 * Z.of_nat (S i))%Z |}.
(* ================================================================== *)
(** * Properties *)
(* ================================================================== *)

Local Open Scope nat_scope.

(** ** Property lists *)

Lemma assoc_set_same {A : Type} (k : string) (a : A) (m : list (string * A)) :
  assoc k (assoc_set k a m) = Some a.
Proof.
  induction m as [|[k' a'] m IH]; simpl.
  - now rewrite String.eqb_refl.
  - destruct (String.eqb k k') eqn:Hk; simpl.
    + now rewrite String.eqb_refl.
    + now rewrite Hk.
Qed.

Lemma assoc_set_other {A : Type} (k k' : string) (a : A)
  (m : list (string * A)) :
  k <> k' -> assoc k (assoc_set k' a m) = assoc k m.
Proof.
  intros Hne. apply String.eqb_neq in Hne.
  induction m as [|[k0 a0] m IH]; simpl.
  - now rewrite Hne.
  - destruct (String.eqb k' k0) eqn:Hk; simpl.
    + apply String.eqb_eq in Hk. subst k0. now rewrite Hne.
    + now rewrite IH.
Qed.

Lemma assoc_of_json (k : string) (m : list (string * json)) :
  assoc k (map (fun kv => match kv with (k0, x) => (k0, of_json x) end) m)
  = option_map of_json (assoc k m).
Proof.
  induction m as [|[k0 x] m IH]; simpl; [reflexivity|].
  now destruct (String.eqb k k0).
Qed.

(** ** [JSON.stringify] undoes [JSON.parse] *)


Lemma to_json_of_json (j : json) : to_json (of_json j) = Some j.
Proof.
  induction j as [ | b | q | s | items IH | members IH ]
    using json_nested_ind; simpl; try reflexivity.
  - f_equal. f_equal. rewrite map_map.
    induction IH as [|x l Hx _ IHl]; simpl; [reflexivity|].
    rewrite Hx. now f_equal.
  - f_equal. f_equal.
    induction IH as [|[k x] l Hx _ IHl]; simpl; [reflexivity|].
    simpl in Hx. rewrite Hx. simpl. now f_equal.
Qed.

Lemma of_json_defined (j : json) : of_json j <> VUndef.
Proof. destruct j; discriminate. Qed.

(** Writing back the members read from a file, after one assignment. *)
Lemma stringify_members (m : list (string * json)) :
  flat_map (fun kv => match kv with
                      | (k, x) => match to_json x with
                                  | Some j => [(k, j)]
                                  | None => []
                                  end
                      end)
    (map (fun kv => match kv with (k, x) => (k, of_json x) end) m) = m.
Proof.
  induction m as [|[k x] m IH]; simpl; [reflexivity|].
  rewrite to_json_of_json. simpl. now f_equal.
Qed.

Lemma stringify_assigned (k : string) (v : value) (jv : json)
  (m : list (string * value)) (mj : list (string * json)) :
  to_json v = Some jv ->
  flat_map (fun kv => match kv with
                      | (k0, x) => match to_json x with
                                   | Some j => [(k0, j)]
                                   | None => []
                                   end
                      end) m = mj ->
  Forall (fun kv => to_json (snd kv) <> None) m ->
  flat_map (fun kv => match kv with
                      | (k0, x) => match to_json x with
                                   | Some j => [(k0, j)]
                                   | None => []
                                   end
                      end) (assoc_set k v m) = assoc_set k jv mj.
Proof.
  intros Hv. revert mj.
  induction m as [|[k0 x] m IH]; intros mj Hm Hall; simpl in *.
  - subst mj. now rewrite Hv.
  - inversion Hall as [|? ? Hx Hrest]; subst. simpl in Hx.
    destruct (to_json x) as [jx|] eqn:Ejx; [|congruence].
    simpl. destruct (String.eqb k k0) eqn:Hk; simpl.
    + now rewrite Hv.
    + rewrite Ejx. simpl. f_equal. now apply IH.
Qed.

Lemma parsed_members_stringify (m : list (string * json)) :
  Forall (fun kv => to_json (snd kv) <> None)
    (map (fun kv => match kv with (k, x) => (k, of_json x) end) m).
Proof.
  induction m as [|[k x] m IH]; simpl; constructor; [|exact IH].
  simpl. rewrite to_json_of_json. discriminate.
Qed.

(** ** The token store *)

(** What [loadKimiCliToken] returns, file state by file state. *)
Lemma loadKimiCliToken_cases (fs : filesystem) :
  loadKimiCliToken fs =
  Normal (match kimi_cli_credentials fs with
          | Holds (Encodes j) =>
              if has_truthy (of_json j) "access_token"
                 && has_truthy (of_json j) "refresh_token"
              then of_json j
              else VNull
          | _ => VNull
          end).
Proof.
  unfold loadKimiCliToken, existsSync, readFileSync, has_truthy. simpl.
  destruct (kimi_cli_credentials fs) as [ | | [ | j ] ]; simpl;
    try reflexivity.
  destruct (get_prop (of_json j) "access_token") as [a|e] eqn:Ha; simpl;
    [|reflexivity].
  destruct (truthy a); simpl; [|reflexivity].
  destruct (get_prop (of_json j) "refresh_token") as [r|e] eqn:Hr; simpl;
    [|reflexivity].
  now destruct (truthy r).
Qed.

Lemma has_truthy_truthy (data : value) (k : string) :
  has_truthy data k = true -> truthy data = true.
Proof.
  unfold has_truthy. destruct data; simpl; try discriminate; reflexivity.
Qed.

(** C8, as stated, fails: a credentials file whose JSON object has no
    [expires_at], [scope] or [token_type] (three of the five fields the
    [KimiToken] interface requires) is not reported absent; the object is
    returned as the token. *)
Lemma loadKimiCliToken_accepts_token_without_expiry :
  get_prop (of_json bare_token) "expires_at" = Normal VUndef
  /\ get_prop (of_json bare_token) "scope" = Normal VUndef
  /\ get_prop (of_json bare_token) "token_type" = Normal VUndef
  /\ loadKimiCliToken (only_credentials bare_token)
     = Normal (VObj [ ("access_token", VStr "a");
                      ("refresh_token", VStr "r") ])
  /\ loadKimiCliToken (only_credentials bare_token) <> Normal VNull.
Proof.
  repeat split; try reflexivity.
  rewrite loadKimiCliToken_cases. simpl. discriminate.
Qed.

(** C8, amended: whatever the state of the credentials file,
    [loadKimiCliToken] returns normally (no exception reaches the caller);
    it returns [null] when the file is missing, unreadable or malformed, or
    holds a JSON value without a truthy [access_token] or without a truthy
    [refresh_token]; and it returns a token only when the file parses and
    these two fields are truthy.  The other fields are not looked at. *)
Theorem loadKimiCliToken_fails_soft (fs : filesystem) :
  (exists v, loadKimiCliToken fs = Normal v)
  /\ (kimi_cli_credentials fs = Missing
      \/ kimi_cli_credentials fs = Unreadable
      \/ kimi_cli_credentials fs = Holds Malformed
      \/ (exists j, kimi_cli_credentials fs = Holds (Encodes j)
                    /\ (has_truthy (of_json j) "access_token" = false
                        \/ has_truthy (of_json j) "refresh_token" = false))
      -> loadKimiCliToken fs = Normal VNull)
  /\ (forall token,
        loadKimiCliToken fs = Normal token -> token <> VNull ->
        exists j, kimi_cli_credentials fs = Holds (Encodes j)
                  /\ token = of_json j
                  /\ has_truthy token "access_token" = true
                  /\ has_truthy token "refresh_token" = true).
Proof.
  rewrite loadKimiCliToken_cases. split; [eauto|]. split.
  - intros [H | [H | [H | [j [H Hj]]]]]; rewrite H; try reflexivity.
    destruct Hj as [Hj | Hj]; rewrite Hj; simpl; [reflexivity|].
    now rewrite andb_false_r.
  - intros token Hload Hpresent.
    injection Hload as Hload.
    destruct (kimi_cli_credentials fs) as [ | | [ | j ] ];
      try (symmetry in Hload; contradiction).
    destruct (has_truthy (of_json j) "access_token") eqn:Ha;
      destruct (has_truthy (of_json j) "refresh_token") eqn:Hr;
      simpl in Hload; try (symmetry in Hload; contradiction).
    subst token. exists j. auto.
Qed.

(** The amended C8 at three concrete files: no file, a malformed file, and
    the sample token of kimi-cli. *)
Lemma loadKimiCliToken_fails_soft_witness :
  loadKimiCliToken {| kimi_cli_credentials := Missing;
                      kimi_cli_writable := true;
                      pi_auth := Missing;
                      pi_auth_writable := true |} = Normal VNull
  /\ loadKimiCliToken {| kimi_cli_credentials := Holds Malformed;
                         kimi_cli_writable := true;
                         pi_auth := Missing;
                         pi_auth_writable := true |} = Normal VNull
  /\ exists v, loadKimiCliToken (sample_files Missing) = Normal v.
Proof.
  split; [|split].
  - apply (proj1 (proj2 (loadKimiCliToken_fails_soft _))).
    left. reflexivity.
  - apply (proj1 (proj2 (loadKimiCliToken_fails_soft _))).
    right. right. left. reflexivity.
  - apply (proj1 (loadKimiCliToken_fails_soft _)).
Defined.

(** C10: [loadKimiCliToken] returns a token exactly when the contents of
    the file parse as JSON and both [access_token] and [refresh_token] are
    truthy.  In particular an empty-string [access_token] or
    [refresh_token] yields [null], and a record made of the two tokens
    alone (no [expires_at], [scope] or [token_type]) is returned as a
    token. *)
Theorem loadKimiCliToken_presence_criterion (fs : filesystem) :
  (forall token,
     (loadKimiCliToken fs = Normal token /\ token <> VNull)
     <-> (exists j, kimi_cli_credentials fs = Holds (Encodes j)
                    /\ token = of_json j
                    /\ has_truthy (of_json j) "access_token" = true
                    /\ has_truthy (of_json j) "refresh_token" = true))
  /\ (forall members,
        kimi_cli_credentials fs = Holds (Encodes (JObj members)) ->
        assoc "access_token" members = Some (JStr EmptyString)
        \/ assoc "refresh_token" members = Some (JStr EmptyString) ->
        loadKimiCliToken fs = Normal VNull)
  /\ (forall a r c d,
        kimi_cli_credentials fs
        = Holds (Encodes (JObj [ ("access_token", JStr (String a c));
                                 ("refresh_token", JStr (String r d)) ])) ->
        loadKimiCliToken fs
        = Normal (VObj [ ("access_token", VStr (String a c));
                         ("refresh_token", VStr (String r d)) ])).
Proof.
  rewrite loadKimiCliToken_cases. split; [|split].
  - intros token. split.
    + intros [Hload Hpresent]. injection Hload as Hload.
      destruct (kimi_cli_credentials fs) as [ | | [ | j ] ];
        try (symmetry in Hload; contradiction).
      destruct (has_truthy (of_json j) "access_token") eqn:Ha;
        destruct (has_truthy (of_json j) "refresh_token") eqn:Hr;
        simpl in Hload; try (symmetry in Hload; contradiction).
      exists j. auto.
    + intros [j [Hfile [Htoken [Ha Hr]]]].
      rewrite Hfile, Ha, Hr. simpl. subst token. split; [reflexivity|].
      intros Hnull. apply has_truthy_truthy in Ha.
      rewrite Hnull in Ha. discriminate.
  - intros members Hfile Hempty. rewrite Hfile.
    unfold has_truthy. simpl. rewrite !assoc_of_json.
    destruct Hempty as [H | H]; rewrite H; simpl; [reflexivity|].
    now rewrite andb_false_r.
  - intros a r c d Hfile. rewrite Hfile. reflexivity.
Qed.

(** C10 at the bare token, and at a file whose [refresh_token] is the empty
    string. *)
Lemma loadKimiCliToken_presence_criterion_witness :
  loadKimiCliToken (only_credentials bare_token)
  = Normal (VObj [ ("access_token", VStr "a"); ("refresh_token", VStr "r") ])
  /\ loadKimiCliToken
       (only_credentials
          (JObj [ ("access_token", JStr "a");
                  ("refresh_token", JStr EmptyString);
                  ("expires_at", JNum 5000) ]))
     = Normal VNull.
Proof.
  split.
  - apply (proj2 (proj2 (loadKimiCliToken_presence_criterion _))).
    reflexivity.
  - apply (proj1 (proj2 (loadKimiCliToken_presence_criterion _))
             [ ("access_token", JStr "a");
               ("refresh_token", JStr EmptyString);
               ("expires_at", JNum 5000) ]).
    + reflexivity.
    + right. reflexivity.
Defined.

(** ** The broker store *)

Lemma seconds_from_eq (now : Z) (margin : Q) :
  seconds_from now margin = Fin (inject_Z now / 1000 + margin).
Proof. reflexivity. Qed.

Lemma Qltb_lt (p q : Q) : Qltb p q = true <-> (p < q)%Q.
Proof.
  unfold Qltb. rewrite Qlt_alt.
  destruct (p ?= q)%Q; split; congruence.
Qed.

Lemma Qltb_ge (p q : Q) : Qltb p q = false <-> (q <= p)%Q.
Proof.
  split; intros H.
  - apply Qnot_lt_le. intros Hlt. apply Qltb_lt in Hlt. congruence.
  - destruct (Qltb p q) eqn:Hb; [|reflexivity].
    apply Qltb_lt in Hb. exfalso. exact (Qlt_not_le _ _ Hb H).
Qed.

Lemma seeded_entry_json (E : Engine) (r a e : value) :
  exists entry, to_json (seeded_entry E r a e) = Some entry.
Proof. unfold seeded_entry. simpl. eauto. Qed.

Lemma at_most_upserted_refl (fs : filesystem) : at_most_upserted fs fs.
Proof. unfold at_most_upserted. auto. Qed.

Lemma seed_attempt_frame (E : Engine) (fs : filesystem)
  (token a e : value) (now' : Z) :
  match seed_attempt E fs token a e now' with
  | Normal (_, fs') => at_most_upserted fs fs'
  | Throw _ => True
  end.
Proof.
  unfold seed_attempt, existsSync, readFileSync, mkdirSync, writeFileSync,
    JSON_stringify.
  simpl file_at. simpl writable.
  destruct (get_prop token "refresh_token") as [r|].
  2:{ destruct (pi_auth fs) as [ | | [ | [ | b | q | s | items | members ] ] ];
        cbn; try exact I.
      destruct (already_seeded E _ now') as [[|]|]; cbn;
        [apply at_most_upserted_refl | exact I | exact I]. }
  destruct (seeded_entry_json E r a e) as [entry Hentry].
  destruct (pi_auth_writable fs) eqn:Hw.
  2:{ destruct (pi_auth fs) as [ | | [ | [ | b | q | s | items | members ] ] ];
        cbn; try exact I.
      destruct (already_seeded E _ now') as [[|]|]; cbn;
        [apply at_most_upserted_refl | exact I | exact I]. }
  destruct (pi_auth fs) as [ | | [ | [ | b | q | s | items | members ] ] ]
    eqn:Hauth; cbn -[seeded_entry to_json]; try exact I.
  - (* no file yet *)
    cbn [to_json flat_map]. rewrite Hentry. cbn.
    unfold at_most_upserted. cbn. rewrite Hauth.
    repeat split; auto. right. exists [], entry. auto.
  - (* an array: the assignment is lost on the way back *)
    change (VArr (map of_json items)) with (of_json (JArr items)).
    rewrite to_json_of_json. cbn.
    unfold at_most_upserted. cbn. rewrite Hauth. repeat split; auto.
  - (* an object *)
    destruct (already_seeded E _ now') as [[|]|];
      cbn -[seeded_entry to_json];
      [apply at_most_upserted_refl | | exact I].
    cbn [to_json].
    rewrite (stringify_assigned PROVIDER_NAME _ entry _ members Hentry
               (stringify_members members)
               (parsed_members_stringify members)).
    cbn. unfold at_most_upserted. cbn. rewrite Hauth.
    repeat split; auto. right. exists members, entry. auto.
Qed.

Lemma seed_frame (E : Engine) (fs : filesystem) (now now' : Z) :
  exists seeded fs',
    seedPiAuthFromKimiCli E fs now now' = Normal (seeded, fs')
    /\ at_most_upserted fs fs'.
Proof.
  unfold seedPiAuthFromKimiCli. rewrite loadKimiCliToken_cases. simpl.
  set (token := match kimi_cli_credentials fs with
                | Holds (Encodes j) =>
                    if has_truthy (of_json j) "access_token"
                       && has_truthy (of_json j) "refresh_token"
                    then of_json j else VNull
                | _ => VNull
                end).
  destruct (truthy token) eqn:Htoken; simpl;
    [|eauto using at_most_upserted_refl].
  destruct (get_prop token "access_token") as [a|] eqn:Ha; simpl;
    [|destruct token; discriminate].
  destruct (truthy a); simpl; [|eauto using at_most_upserted_refl].
  destruct (get_prop token "expires_at") as [e|] eqn:He; simpl;
    [|destruct token; discriminate].
  destruct (num_ltb _ _); [eauto using at_most_upserted_refl|].
  pose proof (seed_attempt_frame E fs token a e now') as Hframe.
  destruct (seed_attempt E fs token a e now') as [[r fs']|]; simpl;
    eauto using at_most_upserted_refl.
Qed.

Lemma already_seeded_total (E : Engine) (existing : value) (now : Z) :
  exists valid, already_seeded E existing now = Normal valid.
Proof.
  unfold already_seeded.
  destruct existing; simpl; eauto;
    repeat match goal with
           | |- context [if ?c then _ else _] => destruct c; simpl
           end; eauto.
Qed.

Lemma already_seeded_entry (E : Engine) (members : list (string * json))
  (now : Z) :
  already_seeded E
    (match assoc PROVIDER_NAME
             (map (fun kv => match kv with (k, x) => (k, of_json x) end)
                members)
     with
     | Some x => x
     | None => VUndef
     end) now
  = Normal (still_valid E (assoc PROVIDER_NAME members) now).
Proof.
  rewrite assoc_of_json. unfold still_valid.
  destruct (assoc PROVIDER_NAME members) as [x|]; simpl; [|reflexivity].
  destruct (already_seeded_total E (of_json x) now) as [valid Hvalid].
  now rewrite Hvalid.
Qed.

(** The [try] block, when the broker file is absent or holds an object. *)
Lemma seed_attempt_upserts (E : Engine) (fs : filesystem)
  (token a e r : value) (now' : Z) (members : list (string * json))
  (entry : json) :
  broker_members (pi_auth fs) = Some members ->
  get_prop token "refresh_token" = Normal r ->
  to_json (seeded_entry E r a e) = Some entry ->
  seed_attempt E fs token a e now' =
  if still_valid E (assoc PROVIDER_NAME members) now'
  then Normal (true, fs)
  else if pi_auth_writable fs
       then Normal (true,
                    put_file fs PI_AUTH_PATH
                      (Holds (Encodes
                                (JObj (assoc_set PROVIDER_NAME entry members)))))
       else Throw SystemError.
Proof.
  intros Hmembers Hr Hentry.
  unfold seed_attempt, existsSync, readFileSync, mkdirSync, writeFileSync,
    JSON_stringify.
  simpl file_at. simpl writable. rewrite Hr.
  destruct (pi_auth fs) as [ | | [ | [ | b | q | s | items | ms ] ] ];
    try discriminate; injection Hmembers as <-;
    cbn -[seeded_entry to_json].
  - destruct (pi_auth_writable fs); cbn -[seeded_entry to_json];
      [|reflexivity].
    cbn [to_json flat_map]. rewrite Hentry. reflexivity.
  - rewrite already_seeded_entry. cbn -[seeded_entry to_json].
    destruct (still_valid E _ now'); cbn -[seeded_entry to_json];
      [reflexivity|].
    destruct (pi_auth_writable fs); cbn -[seeded_entry to_json];
      [|reflexivity].
    cbn [to_json].
    rewrite (stringify_assigned PROVIDER_NAME _ entry _ ms Hentry
               (stringify_members ms) (parsed_members_stringify ms)).
    reflexivity.
Qed.

Lemma seeded_entry_of_json (E : Engine) (jr ja : json) (e : Q) :
  to_json (seeded_entry E (of_json jr) (of_json ja) (VNum (Fin e)))
  = Some (JObj [ ("type", JStr "oauth");
                 ("refresh", jr);
                 ("access", ja);
                 ("expires", JNum (e * 1000)) ]).
Proof.
  unfold seeded_entry. cbn [to_json flat_map].
  rewrite !to_json_of_json. reflexivity.
Qed.

(** C7: whatever the broker file held before, [seedPiAuthFromKimiCli]
    returns normally and leaves every entry other than ["kimi-coder"] as it
    was; the file is either untouched or its old members with one
    assignment to the key ["kimi-coder"]. *)
Theorem seed_preserves_other_providers (E : Engine) (fs : filesystem)
  (now now' : Z) (k : string) :
  k <> PROVIDER_NAME ->
  exists seeded fs',
    seedPiAuthFromKimiCli E fs now now' = Normal (seeded, fs')
    /\ broker_entry (pi_auth fs') k = broker_entry (pi_auth fs) k
    /\ (pi_auth fs' = pi_auth fs
        \/ exists members entry,
             broker_members (pi_auth fs) = Some members
             /\ pi_auth fs'
                = Holds (Encodes
                           (JObj (assoc_set PROVIDER_NAME entry members)))).
Proof.
  intros Hother.
  destruct (seed_frame E fs now now') as [seeded [fs' [Hrun Hframe]]].
  exists seeded, fs'. split; [exact Hrun|].
  destruct Hframe as [_ [_ [_ Hauth]]]. split; [|exact Hauth].
  destruct Hauth as [Hsame | [members [entry [Hmembers Hnew]]]].
  - now rewrite Hsame.
  - rewrite Hnew. simpl. rewrite (assoc_set_other _ _ _ _ Hother).
    destruct (pi_auth fs) as [ | | [ | [ | b | q | s | items | ms ] ] ];
      try discriminate; injection Hmembers as <-; reflexivity.
Qed.

(** C7 at an auth.json that already holds another provider's key. *)
Lemma seed_preserves_other_providers_witness :
  exists seeded fs',
    seedPiAuthFromKimiCli sample_engine (sample_files other_provider)
      1000000 1000000 = Normal (seeded, fs')
    /\ broker_entry (pi_auth fs') "other-provider"
       = broker_entry (pi_auth (sample_files other_provider)) "other-provider"
    /\ (pi_auth fs' = pi_auth (sample_files other_provider)
        \/ exists members entry,
             broker_members (pi_auth (sample_files other_provider))
             = Some members
             /\ pi_auth fs'
                = Holds (Encodes
                           (JObj (assoc_set PROVIDER_NAME entry members)))).
Proof.
  apply (seed_preserves_other_providers sample_engine
           (sample_files other_provider) 1000000 1000000 "other-provider").
  discriminate.
Defined.




(** ** The device flow *)

Lemma get_prop_field (data : value) (k : string) (x : value) :
  get_prop data k = Normal x -> field data k = x.
Proof. unfold field. now intros ->. Qed.

Lemma get_prop_total (data : value) (k k' : string) (x : value) :
  get_prop data k = Normal x -> get_prop data k' = Normal (field data k').
Proof.
  unfold field. destruct data; simpl; try discriminate; reflexivity.
Qed.

Lemma token_of_response_built (E : Engine) (data : value) (now : Z)
  (k : string) (x : value) :
  get_prop data k = Normal x ->
  token_of_response E data now = Normal (token_built E data now).
Proof.
  intros H. unfold token_of_response, token_built, lifetime.
  rewrite (get_prop_total data k "expires_in" x H).
  rewrite (get_prop_total data k "access_token" x H).
  rewrite (get_prop_total data k "refresh_token" x H).
  rewrite (get_prop_total data k "scope" x H).
  rewrite (get_prop_total data k "token_type" x H).
  cbn [bind]. unfold js_or at 1.
  destruct (truthy (field data "expires_in")); reflexivity.
Qed.

Lemma token_response_accepted (E : Engine) (x : exchange) (raw : string)
  (j : json) :
  reply x = Response 200 raw (Encodes j) ->
  has_truthy (of_json j) "access_token" = true ->
  poll_once E x
  = Normal (Some (token_built E (of_json j) (received_at x))).
Proof.
  intros Hreply Haccess. unfold poll_once. rewrite Hreply.
  cbn [JSON_parse bind Z.eqb Pos.eqb]. unfold has_truthy in Haccess.
  destruct (get_prop (of_json j) "access_token") as [a|] eqn:Ha;
    [|discriminate].
  cbn [bind]. rewrite Haccess.
  now rewrite (token_of_response_built E _ _ _ _ Ha).
Qed.

Lemma falls_through_poll_once (E : Engine) (x : exchange) :
  falls_through E (reply x) = true <-> poll_once E x = Normal None.
Proof.
  unfold falls_through, poll_once, token_response, has_truthy.
  destruct (reply x) as [|status raw [|j]]; cbn [JSON_parse bind];
    try (split; discriminate).
  destruct (get_prop (of_json j) "access_token") as [a|thrown] eqn:Ha.
  - rewrite (get_prop_total _ _ "error" _ Ha).
    destruct (status =? 200)%Z; cbn [bind andb negb].
    + destruct (truthy a); cbn [negb andb].
      * rewrite (token_of_response_built E _ _ _ _ Ha). cbn [bind].
        split; discriminate.
      * destruct (String.eqb _ "expired_token"); cbn [negb];
          split; (reflexivity || discriminate).
    + destruct (String.eqb _ "expired_token"); cbn [negb];
        split; (reflexivity || discriminate).
  - assert (Hnull : forall k, exists e, get_prop (of_json j) k = Throw e).
    { destruct (of_json j); try discriminate; simpl; eauto. }
    destruct (Hnull "error") as [e He]. rewrite He.
    rewrite andb_false_r.
    destruct (status =? 200)%Z; cbn [bind]; split; discriminate.
Qed.

Lemma error_response_code (E : Engine) (code : string) (r : http) :
  error_response code r = true ->
  exists status raw j,
    r = Response status raw (Encodes j)
    /\ token_response r = false
    /\ get_prop (of_json j) "error" = Normal (VStr code).
Proof.
  unfold error_response.
  destruct r as [|status raw [|j]]; try discriminate.
  destruct (token_response _) eqn:Htoken; [discriminate|].
  destruct (get_prop (of_json j) "error") as [[ | | | | c | | ]|] eqn:Herr;
    try discriminate.
  cbn [negb andb]. intros Hc. apply String.eqb_eq in Hc. subst c.
  now exists status, raw, j.
Qed.

Lemma pending_falls_through (E : Engine) (r : http) :
  pending_response r = true -> falls_through E r = true.
Proof.
  unfold pending_response. intros H. apply orb_true_iff in H.
  destruct H as [H | H];
    destruct (error_response_code E _ _ H) as [st [raw [j [-> [Ht He]]]]];
    unfold falls_through; rewrite Ht, He; reflexivity.
Qed.

Lemma expired_poll_once (E : Engine) (x : exchange) :
  error_response "expired_token" (reply x) = true ->
  poll_once E x = Throw DEVICE_CODE_EXPIRED.
Proof.
  intros H.
  destruct (error_response_code E _ _ H) as [st [raw [j [Hr [Ht He]]]]].
  unfold poll_once. rewrite Hr. cbn [JSON_parse bind].
  rewrite Hr in Ht. unfold token_response, has_truthy in Ht.
  rewrite (get_prop_total _ _ "access_token" _ He) in *.
  destruct (st =? 200)%Z; cbn [bind andb] in *;
    [rewrite Ht|]; cbn [bind]; rewrite He; reflexivity.
Qed.

(** *** The loop counter against the bound *)

Lemma num_ltb_below (i n : nat) (bound : num) :
  i <= n ->
  num_ltb (num_of_nat n) bound = true ->
  num_ltb (num_of_nat i) bound = true.
Proof.
  intros Hle. unfold num_of_nat, num_of_Z.
  destruct bound as [ | s | q ]; simpl; try (intros; assumption).
  rewrite !Qltb_lt. intros Hn.
  apply Qle_lt_trans with (y := inject_Z (Z.of_nat n)); [|exact Hn].
  rewrite <- Zle_Qle. lia.
Qed.

Lemma attempts_of_spec (bound : num) (M i : nat) :
  attempts_of bound = Some M ->
  (num_ltb (num_of_nat i) bound = true <-> i < M).
Proof.
  unfold num_of_nat, num_of_Z.
  destruct bound as [ | [|] | q ]; simpl; try discriminate;
    try (intros [= <-]; split; [discriminate | lia]).
  intros [= <-]. rewrite Qltb_lt. split.
  - intros Hlt.
    assert (H : (inject_Z (Z.of_nat i) < inject_Z (Qceiling q))%Q).
    { apply Qlt_le_trans with (y := q); [exact Hlt | apply Qle_ceiling]. }
    rewrite <- Zlt_Qlt in H. lia.
  - intros Hlt.
    apply Qle_lt_trans with (y := inject_Z (Qceiling q - 1));
      [|apply Qceiling_lt].
    rewrite <- Zle_Qle. lia.
Qed.

(** *** Runs of the polling loop *)

Lemma poll_log_S (auth : DeviceAuthorization) (n : nat) :
  poll_log auth (S n) = (poll_events auth ++ poll_log auth n)%list.
Proof. reflexivity. Qed.

Lemma poll_log_snoc (auth : DeviceAuthorization) (n : nat) :
  (poll_log auth n ++ poll_events auth)%list = poll_log auth (S n).
Proof.
  unfold poll_log. induction n as [|n IH]; cbn [repeat List.concat] in *.
  - now rewrite app_nil_r.
  - now rewrite <- app_assoc, IH.
Qed.

Lemma requests_poll_log (auth : DeviceAuthorization) (n : nat) :
  List.length (requests (poll_log auth n)) = n.
Proof.
  induction n as [|n IH]; [reflexivity|].
  rewrite poll_log_S. unfold requests in *. simpl. now rewrite IH.
Qed.

Section PollLoop.
Variable E : Engine.
Variable auth : DeviceAuthorization.
Variable net : nat -> exchange.
Variable bound : num.

(** [n] turns that all fall through. *)
Lemma poll_loop_falls_through (n : nat) :
  forall fuel i,
    (forall j, j < n ->
       num_ltb (num_of_nat (i + j)) bound = true
       /\ poll_once E (net (i + j)) = Normal None) ->
    poll_loop E (n + fuel) auth net bound i
    = match poll_loop E fuel auth net bound (i + n) with
      | Some (result, later) => Some (result, (poll_log auth n ++ later)%list)
      | None => None
      end.
Proof.
  induction n as [|n IH]; intros fuel i Hturns.
  - rewrite Nat.add_0_r. simpl.
    destruct (poll_loop E fuel auth net bound i) as [[result later]|];
      reflexivity.
  - destruct (Hturns 0 (Nat.lt_0_succ n)) as [Hlt Honce].
    rewrite Nat.add_0_r in Hlt, Honce.
    cbn [Nat.add poll_loop]. rewrite Hlt, Honce.
    rewrite IH.
    + replace (S i + n) with (i + S n) by lia.
      destruct (poll_loop E fuel auth net bound (i + S n))
        as [[result later]|]; [|reflexivity].
      now rewrite poll_log_S, app_assoc.
    + intros j Hj. replace (S i + j) with (i + S j) by lia.
      apply Hturns. lia.
Qed.

(** Every finished run is [n] turns: either all fell through and the
    counter reached the bound, or the last one returned or threw. *)
Lemma poll_loop_finished (fuel : nat) :
  forall i result log,
    poll_loop E fuel auth net bound i = Some (result, log) ->
    exists n,
      log = poll_log auth n
      /\ (forall j, j < n -> num_ltb (num_of_nat (i + j)) bound = true)
      /\ ((result = Throw LOGIN_TIMED_OUT
           /\ num_ltb (num_of_nat (i + n)) bound = false
           /\ forall j, j < n -> poll_once E (net (i + j)) = Normal None)
          \/ exists m,
               n = S m
               /\ (forall j, j < m -> poll_once E (net (i + j)) = Normal None)
               /\ match poll_once E (net (i + m)) with
                  | Normal (Some token) => result = Normal token
                  | Normal None => False
                  | Throw e => result = Throw e
                  end).
Proof.
  induction fuel as [|fuel IH]; intros i result log; [discriminate|].
  cbn [poll_loop].
  destruct (num_ltb (num_of_nat i) bound) eqn:Hlt.
  - destruct (poll_once E (net i)) as [[token|]|e] eqn:Honce.
    + intros [= <- <-]. exists 1. split; [reflexivity|]. split.
      * intros j Hj. replace (i + j) with i by lia. exact Hlt.
      * right. exists 0. repeat split; [intros j Hj; lia|].
        rewrite Nat.add_0_r, Honce. reflexivity.
    + destruct (poll_loop E fuel auth net bound (S i))
        as [[result' later]|] eqn:Hrest; [|discriminate].
      intros [= <- <-].
      destruct (IH _ _ _ Hrest) as [n [-> [Hbelow Hend]]].
      assert (Hshift : forall j P,
                 (forall j', j' < n -> P (S i + j')) ->
                 j < S n -> P i -> P (i + j)).
      { intros [|j] P Hall Hj Hi; [now rewrite Nat.add_0_r|].
        replace (i + S j) with (S i + j) by lia. apply Hall. lia. }
      exists (S n). split; [reflexivity|]. split.
      * intros j Hj.
        apply (Hshift j (fun k => num_ltb (num_of_nat k) bound = true));
          auto.
      * destruct Hend as [[Hout [Hstop Hall]] | [m [-> [Hall Hlast]]]].
        -- left. split; [exact Hout|]. split.
           ++ now replace (i + S n) with (S i + n) by lia.
           ++ intros j Hj.
              apply (Hshift j (fun k => poll_once E (net k) = Normal None));
                auto.
        -- right. exists (S m). split; [reflexivity|]. split.
           ++ intros [|j] Hj; [now rewrite Nat.add_0_r|].
              replace (i + S j) with (S i + j) by lia. apply Hall. lia.
           ++ now replace (i + S m) with (S i + m) by lia.
    + intros [= <- <-]. exists 1. split; [reflexivity|]. split.
      * intros j Hj. replace (i + j) with i by lia. exact Hlt.
      * right. exists 0. repeat split; [intros j Hj; lia|].
        rewrite Nat.add_0_r, Honce. reflexivity.
  - intros [= <- <-]. exists 0. split; [reflexivity|]. split.
    + intros j Hj. lia.
    + left. rewrite Nat.add_0_r. repeat split; [exact Hlt|].
      intros j Hj. lia.
Qed.

(** With a finite number [M] of attempts, [M + 1] tests of the loop
    condition are enough. *)
Lemma poll_loop_terminates (M : nat) :
  attempts_of bound = Some M ->
  forall fuel i,
    0 < fuel -> M < fuel + i ->
    exists result log, poll_loop E fuel auth net bound i = Some (result, log).
Proof.
  intros HM. induction fuel as [|fuel IH]; intros i Hpos Hfuel; [lia|].
  cbn [poll_loop].
  destruct (num_ltb (num_of_nat i) bound) eqn:Hlt; [|eauto].
  apply (attempts_of_spec _ _ _ HM) in Hlt.
  destruct (poll_once E (net i)) as [[token|]|e]; eauto.
  destruct (IH (S i)) as [result [log Hrest]]; [lia | lia |].
  rewrite Hrest. eauto.
Qed.
End PollLoop.

(** C2: when the first [N] answers are [authorization_pending] or
    [slow_down] and answer [N + 1] is a 200 with an access token, with [N]
    below the attempt bound, [pollForToken] returns the token built from
    that last answer; its log is [N + 1] times "sleep [interval * 1000]
    milliseconds, then post the device-code grant", hence exactly [N + 1]
    requests, each preceded by its sleep; no pending answer ends the run. *)
Theorem pollForToken_pending_then_token (E : Engine)
  (auth : DeviceAuthorization) (net : nat -> exchange) (N : nat)
  (raw : string) (j : json) :
  num_ltb (num_of_nat N) (maxAttempts auth) = true ->
  (forall i, i < N -> pending_response (reply (net i)) = true) ->
  reply (net N) = Response 200 raw (Encodes j) ->
  has_truthy (of_json j) "access_token" = true ->
  forall fuel, N < fuel ->
    pollForToken E fuel auth net
    = Some (Normal (token_built E (of_json j) (received_at (net N))),
            poll_log auth (S N))
    /\ List.length (requests (poll_log auth (S N))) = S N
    /\ poll_log auth (S N)
       = List.concat
           (repeat [ Sleep (num_mul (interval auth) (Fin 1000));
                     Fetch (DeviceCodeGrant (device_code auth)) ] (S N)).
Proof.
  intros Hbound Hpending Hlast Haccess fuel Hfuel.
  split; [|split; [apply requests_poll_log | reflexivity]].
  unfold pollForToken.
  replace fuel with (N + S (fuel - S N)) by lia.
  rewrite poll_loop_falls_through.
  - cbn [Nat.add poll_loop]. rewrite Hbound.
    rewrite (token_response_accepted E _ _ _ Hlast Haccess).
    now rewrite poll_log_snoc.
  - intros i Hi. cbn [Nat.add]. split.
    + apply (num_ltb_below i N); [lia | exact Hbound].
    + apply falls_through_poll_once, pending_falls_through, Hpending, Hi.
Qed.

(** C2 with two pending answers before the token, an interval of 5
    seconds and a device code valid for 900 seconds: three requests. *)
Lemma pollForToken_pending_then_token_witness :
  pollForToken sample_engine 10 (sample_auth (Some (Fin 900)) (Fin 5))
    (pending_then 2 token_reply)
  = Some (Normal (token_built sample_engine
                    (of_json (JObj [ ("access_token", JStr "new-access");
                                     ("refresh_token", JStr "new-refresh");
                                     ("expires_in", JNum 900) ]))
                    1015000),
          poll_log (sample_auth (Some (Fin 900)) (Fin 5)) 3)
  /\ List.length
       (requests (poll_log (sample_auth (Some (Fin 900)) (Fin 5)) 3)) = 3
  /\ poll_log (sample_auth (Some (Fin 900)) (Fin 5)) 3
     = List.concat
         (repeat [ Sleep (num_mul (Fin 5) (Fin 1000));
                   Fetch (DeviceCodeGrant "device-1") ] 3).
Proof.
  apply (pollForToken_pending_then_token sample_engine
           (sample_auth (Some (Fin 900)) (Fin 5))
           (pending_then 2 token_reply) 2 EmptyString
           (JObj [ ("access_token", JStr "new-access");
                   ("refresh_token", JStr "new-refresh");
                   ("expires_in", JNum 900) ])).
  - reflexivity.
  - intros [|[|i]] Hi; [reflexivity | reflexivity | lia].
  - reflexivity.
  - reflexivity.
  - lia.
Defined.

(** C4: an [expired_token] error on the very first answer ends
    [pollForToken] with the device-code-expired error after that one
    request; more generally (counting answers from 0) when answers
    [0 .. k-1] fall through and answer [k] is an [expired_token] error, the
    run ends with that error after exactly [k + 1] requests; and in any
    finished run, against any server, an [expired_token] error among the
    answers received is the last one. *)
Theorem pollForToken_expired_token (E : Engine)
  (auth : DeviceAuthorization) (net : nat -> exchange) :
  (num_ltb (num_of_nat 0) (maxAttempts auth) = true ->
   error_response "expired_token" (reply (net 0)) = true ->
   forall fuel, 0 < fuel ->
     pollForToken E fuel auth net
     = Some (Throw DEVICE_CODE_EXPIRED, poll_log auth 1))
  /\ (forall k,
        num_ltb (num_of_nat k) (maxAttempts auth) = true ->
        (forall i, i < k -> falls_through E (reply (net i)) = true) ->
        error_response "expired_token" (reply (net k)) = true ->
        forall fuel, k < fuel ->
          pollForToken E fuel auth net
          = Some (Throw DEVICE_CODE_EXPIRED, poll_log auth (S k))
          /\ List.length (requests (poll_log auth (S k))) = S k)
  /\ (forall fuel result log k,
        pollForToken E fuel auth net = Some (result, log) ->
        k < List.length (requests log) ->
        error_response "expired_token" (reply (net k)) = true ->
        result = Throw DEVICE_CODE_EXPIRED
        /\ List.length (requests log) = S k).
Proof.
  assert (Hgeneral : forall k,
             num_ltb (num_of_nat k) (maxAttempts auth) = true ->
             (forall i, i < k -> falls_through E (reply (net i)) = true) ->
             error_response "expired_token" (reply (net k)) = true ->
             forall fuel, k < fuel ->
               pollForToken E fuel auth net
               = Some (Throw DEVICE_CODE_EXPIRED, poll_log auth (S k))).
  { intros k Hbound Hbefore Hexpired fuel Hfuel. unfold pollForToken.
    replace fuel with (k + S (fuel - S k)) by lia.
    rewrite poll_loop_falls_through.
    - cbn [Nat.add poll_loop]. rewrite Hbound.
      rewrite (expired_poll_once E _ Hexpired). now rewrite poll_log_snoc.
    - intros i Hi. cbn [Nat.add]. split.
      + apply (num_ltb_below i k); [lia | exact Hbound].
      + apply falls_through_poll_once, Hbefore, Hi. }
  split; [|split].
  - intros Hbound Hexpired fuel Hfuel.
    apply Hgeneral; auto. intros i Hi. lia.
  - intros k Hbound Hbefore Hexpired fuel Hfuel.
    split; [now apply Hgeneral | apply requests_poll_log].
  - intros fuel result log k Hrun Hk Hexpired.
    destruct (poll_loop_finished E auth net _ fuel 0 result log Hrun)
      as [n [-> [_ Hend]]].
    rewrite requests_poll_log in *.
    pose proof (expired_poll_once E _ Hexpired) as Honce.
    destruct Hend as [[_ [_ Hall]] | [m [-> [Hall Hlast]]]].
    + specialize (Hall k Hk). cbn [Nat.add] in Hall. congruence.
    + cbn [Nat.add] in *.
      assert (Hkm : k = m).
      { destruct (Nat.eq_dec k m) as [|Hne]; [assumption|].
        assert (Hlt : k < m) by lia.
        specialize (Hall k Hlt). congruence. }
      subst m. rewrite Honce in Hlast. auto.
Qed.

(** C4 on a server whose first answer is [expired_token], and on one that
    answers pending twice before it. *)
Lemma pollForToken_expired_token_witness :
  pollForToken sample_engine 10 (sample_auth (Some (Fin 900)) (Fin 5))
    (pending_then 0 expired_reply)
  = Some (Throw DEVICE_CODE_EXPIRED,
          [ Sleep (Fin 5000); Fetch (DeviceCodeGrant "device-1") ])
  /\ pollForToken sample_engine 10 (sample_auth (Some (Fin 900)) (Fin 5))
       (pending_then 2 expired_reply)
     = Some (Throw DEVICE_CODE_EXPIRED,
             poll_log (sample_auth (Some (Fin 900)) (Fin 5)) 3)
  /\ List.length
       (requests (poll_log (sample_auth (Some (Fin 900)) (Fin 5)) 3)) = 3.
Proof.
  split.
  - apply (proj1 (pollForToken_expired_token sample_engine
                    (sample_auth (Some (Fin 900)) (Fin 5))
                    (pending_then 0 expired_reply))).
    + reflexivity.
    + reflexivity.
    + lia.
  - apply (proj1 (proj2 (pollForToken_expired_token sample_engine
                           (sample_auth (Some (Fin 900)) (Fin 5))
                           (pending_then 2 expired_reply))) 2).
    + reflexivity.
    + intros [|[|i]] Hi; [reflexivity | reflexivity | lia].
    + reflexivity.
    + lia.
Defined.

(** [requestDeviceAuthorization] never hands out an interval below one
    second: it is NaN (no attempt is made) or at least 1. *)
Lemma requestDeviceAuthorization_interval (E : Engine) (r : http)
  (auth : DeviceAuthorization) :
  requestDeviceAuthorization E r = Normal auth ->
  interval auth = NaN \/ num_ltb (interval auth) (Fin 1) = false.
Proof.
  unfold requestDeviceAuthorization.
  destruct r as [|status raw body]; [discriminate|].
  destruct (response_ok status); cbn [negb]; [|discriminate].
  destruct (JSON_parse body) as [data|]; cbn [bind]; [|discriminate].
  repeat match goal with
         | |- context [bind (get_prop data ?k) _] =>
             destruct (get_prop data k); cbn [bind]; [|discriminate]
         end.
  intros [= <-]. cbn [interval].
  destruct (ToNumber E _) as [ | s | q ]; [left; reflexivity | right ..].
  - destruct s; reflexivity.
  - unfold Math_max. destruct (num_ltb (Fin q) (Fin 1)) eqn:Hlt;
      [reflexivity | exact Hlt].
Qed.

Lemma pollForToken_ends_within (E : Engine) (auth : DeviceAuthorization)
  (net : nat -> exchange) (M : nat) :
  attempts_of (maxAttempts auth) = Some M -> ends_within E auth net M.
Proof.
  intros HM fuel Hfuel. unfold pollForToken.
  destruct (poll_loop_terminates E auth net _ M HM fuel 0)
    as [result [log Hrun]]; [lia | lia |].
  exists result, log. split; [exact Hrun|].
  destruct (poll_loop_finished E auth net _ fuel 0 result log Hrun)
    as [n [-> [Hbelow Hend]]].
  rewrite requests_poll_log.
  assert (Hn : n <= M).
  { destruct (Nat.le_gt_cases n M) as [|Hgt]; [assumption|].
    specialize (Hbelow M Hgt). cbn [Nat.add] in Hbelow.
    apply (attempts_of_spec _ _ _ HM) in Hbelow. lia. }
  split; [exact Hn|].
  intros Hall.
  destruct Hend as [[Hout [Hstop _]] | [m [-> [_ Hlast]]]].
  - split; [exact Hout|]. cbn [Nat.add] in Hstop.
    destruct (Nat.eq_dec n M) as [|Hne]; [assumption|].
    assert (Hlt : n < M) by lia.
    apply (attempts_of_spec _ _ _ HM) in Hlt. congruence.
  - cbn [Nat.add] in Hlast.
    assert (Hm : m < M) by lia.
    apply Hall, falls_through_poll_once in Hm.
    rewrite Hm in Hlast. contradiction.
Qed.

Lemma poll_loop_unbounded (E : Engine) (auth : DeviceAuthorization)
  (fuel : nat) :
  forall i, poll_loop E fuel auth always_pending (Inf false) i = None.
Proof.
  induction fuel as [|fuel IH]; intros i; [reflexivity|].
  cbn [poll_loop]. change (num_ltb (num_of_nat i) (Inf false)) with true.
  change (poll_once E (always_pending i)) with (poll_once E (always_pending 0)).
  rewrite (proj1 (falls_through_poll_once E (always_pending 0)) eq_refl).
  now rewrite IH.
Qed.

(** C5, as stated, fails twice.  A device authorization that carries
    [expires_in = 0] (the server sent the string "0") is polled 120 times
    although [ceil(0 / 5)] is 0: a zero lifetime counts as absent.  And with an infinite [expires_in]
    (what [Number("Infinity")] gives) the bound is infinite: against a
    server that always answers pending the loop is still running whatever
    the number of turns allowed. *)
Lemma pollForToken_attempts_not_always_bounded :
  (exists auth,
     requestDeviceAuthorization sample_engine zero_lifetime_authorization
     = Normal auth
     /\ expires_in auth = Some (Fin 0)
     /\ interval auth = Fin 5)
  /\ attempts_of (Math_ceil (num_div (Fin 0) (Fin 5))) = Some 0
  /\ (exists log,
        pollForToken sample_engine 200 (sample_auth (Some (Fin 0)) (Fin 5))
          always_pending = Some (Throw LOGIN_TIMED_OUT, log)
        /\ List.length (requests log) = 120)
  /\ (forall fuel,
        pollForToken sample_engine fuel
          (sample_auth (Some (Inf false)) (Fin 5)) always_pending = None).
Proof.
  split; [|split; [reflexivity|split]].
  - eexists. split; [vm_compute; reflexivity|]. split; reflexivity.
  - eexists. split; vm_compute; reflexivity.
  - intros fuel. apply poll_loop_unbounded.
Qed.

(** C5, amended: the attempt bound is [ceil(expires_in / interval)] when
    [expires_in] is present and truthy (neither 0 nor NaN) and 120
    otherwise.  Whenever that bound allows finitely many attempts [M],
    [pollForToken] ends whatever the server answers, after at most [M]
    requests, and when all [M] answers fall through (none is a token, an
    [expired_token] error or a failure) it ends with the login-timeout
    error after exactly [M] requests.  The bound is finite whenever
    [interval] is not zero and [expires_in] is finite or absent. *)
Theorem pollForToken_attempts_bounded (E : Engine)
  (auth : DeviceAuthorization) (net : nat -> exchange) :
  (forall n M,
     expires_in auth = Some n -> num_truthy n = true ->
     attempts_of (Math_ceil (num_div n (interval auth))) = Some M ->
     ends_within E auth net M)
  /\ (expires_in auth = None
      \/ (exists n, expires_in auth = Some n /\ num_truthy n = false) ->
      ends_within E auth net 120)
  /\ ((forall q, interval auth = Fin q -> ~ (q == 0)%Q) ->
      expires_in auth = None
      \/ (exists n, expires_in auth = Some (Fin n)) ->
      exists M, attempts_of (maxAttempts auth) = Some M).
Proof.
  split; [|split].
  - intros n M Hn Htruthy HM. apply pollForToken_ends_within.
    unfold maxAttempts. now rewrite Hn, Htruthy.
  - intros Habsent. apply pollForToken_ends_within.
    unfold maxAttempts.
    destruct Habsent as [-> | [n [-> ->]]]; reflexivity.
  - intros Hnz Hfinite. unfold maxAttempts.
    destruct Hfinite as [-> | [n ->]]; [simpl; eauto|].
    destruct (num_truthy (Fin n)); [|simpl; eauto].
    destruct (interval auth) as [ | s | q ] eqn:Hq; [simpl; eauto ..|].
    unfold num_div.
    assert (Hz : Qis_zero q = false).
    { unfold Qis_zero. apply Z.eqb_neq. intros H0. apply (Hnz q eq_refl).
      unfold Qeq. simpl. rewrite H0. reflexivity. }
    rewrite Hz. simpl. eauto.
Qed.

(** The amended C5 for a device code valid for 12 seconds polled every 5
    seconds (3 attempts), and for one without [expires_in] (120
    attempts), against a server that always answers pending. *)
Lemma pollForToken_attempts_bounded_witness :
  ends_within sample_engine (sample_auth (Some (Fin 12)) (Fin 5))
    always_pending 3
  /\ ends_within sample_engine (sample_auth None (Fin 5)) always_pending 120
  /\ exists M,
       attempts_of (maxAttempts (sample_auth (Some (Fin 12)) (Fin 5)))
       = Some M.
Proof.
  split; [|split].
  - apply (proj1 (pollForToken_attempts_bounded sample_engine
                    (sample_auth (Some (Fin 12)) (Fin 5)) always_pending)
             (Fin 12) 3); reflexivity.
  - apply (proj1 (proj2 (pollForToken_attempts_bounded sample_engine
                           (sample_auth None (Fin 5)) always_pending))).
    left. reflexivity.
  - apply (proj2 (proj2 (pollForToken_attempts_bounded sample_engine
                           (sample_auth (Some (Fin 12)) (Fin 5))
                           always_pending))).
    + intros q [= <-] H. discriminate H.
    + right. exists 12%Q. reflexivity.
Defined.

(** *** The expiry of a new token *)

Lemma poll_once_token (E : Engine) (x : exchange) (token : KimiToken) :
  poll_once E x = Normal (Some token) ->
  exists raw j,
    reply x = Response 200 raw (Encodes j)
    /\ token = token_built E (of_json j) (received_at x).
Proof.
  unfold poll_once.
  destruct (reply x) as [|status raw [|j]]; cbn [JSON_parse bind];
    try discriminate.
  destruct (status =? 200)%Z eqn:Hstatus; cbn [bind].
  - apply Z.eqb_eq in Hstatus. subst status.
    destruct (get_prop (of_json j) "access_token") as [a|thrown] eqn:Ha;
      cbn [bind]; [|discriminate].
    rewrite (get_prop_total _ _ "error" _ Ha).
    rewrite (token_of_response_built E _ _ _ _ Ha).
    destruct (truthy a); cbn [bind].
    + intros [= <-]. eauto.
    + destruct (String.eqb _ "expired_token"); discriminate.
  - destruct (get_prop (of_json j) "error") as [err|thrown]; cbn [bind];
      [|discriminate].
    destruct (String.eqb _ "expired_token"); discriminate.
Qed.

Lemma refresh_response_token (E : Engine) (x : exchange)
  (token : KimiToken) :
  refresh_response E x = Normal token ->
  exists status raw j,
    reply x = Response status raw (Encodes j)
    /\ token = token_built E (of_json j) (received_at x).
Proof.
  unfold refresh_response.
  destruct (reply x) as [|status raw [|j]]; cbn [JSON_parse bind];
    try discriminate.
  destruct (get_prop (of_json j) "expires_in") as [l|thrown] eqn:Hl.
  - rewrite (get_prop_total _ _ "error_description" _ Hl).
    rewrite (token_of_response_built E _ _ _ _ Hl).
    destruct (response_ok status); cbn [negb bind]; [|discriminate].
    intros [= <-]. eauto.
  - assert (Hnull : forall k, exists e, get_prop (of_json j) k = Throw e).
    { destruct (of_json j); try discriminate; simpl; eauto. }
    destruct (Hnull "error_description") as [e1 He1]. rewrite He1.
    unfold token_of_response. rewrite Hl.
    destruct (response_ok status); discriminate.
Qed.

Lemma get_prop_members (members : list (string * json)) (k : string) :
  get_prop (of_json (JObj members)) k
  = Normal (match assoc k members with
            | Some x => of_json x
            | None => VUndef
            end).
Proof.
  cbn [of_json get_prop]. rewrite assoc_of_json.
  now destruct (assoc k members).
Qed.

(** C3, as stated, fails: a token response with [expires_in: 0] yields a
    token that expires 3600 seconds after the reply was received, not 0
    seconds after it, from [refreshAccessToken] and from [pollForToken]
    alike: a falsy [expires_in] counts as omitted. *)
Lemma zero_expires_in_counts_as_omitted :
  get_prop (of_json (JObj [ ("access_token", JStr "new-access");
                            ("refresh_token", JStr "new-refresh");
                            ("expires_in", JNum 0) ])) "expires_in"
  = Normal (VNum (Fin 0))
  /\ (exists token at_,
        refresh_response sample_engine
          {| reply := zero_lifetime_reply; received_at := 1000000 |}
        = Normal token
        /\ field token "expires_at" = VNum at_
        /\ num_eqb at_ (seconds_from 1000000 3600) = true
        /\ num_eqb at_ (seconds_from 1000000 0) = false)
  /\ (exists token log at_,
        pollForToken sample_engine 10
          (sample_auth (Some (Fin 900)) (Fin 5))
          (fun _ => {| reply := zero_lifetime_reply;
                       received_at := 1000000 |})
        = Some (Normal token, log)
        /\ field token "expires_at" = VNum at_
        /\ num_eqb at_ (seconds_from 1000000 3600) = true
        /\ num_eqb at_ (seconds_from 1000000 0) = false).
Proof.
  split; [reflexivity|]. split.
  - eexists. eexists. split; [vm_compute; reflexivity|].
    split; [vm_compute; reflexivity|]. split; vm_compute; reflexivity.
  - eexists. eexists. eexists. split; [vm_compute; reflexivity|].
    split; [vm_compute; reflexivity|]. split; vm_compute; reflexivity.
Qed.

(** C3, amended: every token that [refreshAccessToken] or [pollForToken]
    returns has [expires_at] equal to the time the response was received
    (in seconds) plus the response's relative [expires_in] converted to a
    number, where 3600 stands in for an [expires_in] that is omitted or
    falsy (0, null, false, the empty string); an [expires_at] member of
    the response body has no influence on the result.
    ([requestDeviceAuthorization] returns a [DeviceAuthorization], which
    has no [expires_at].) *)
Theorem expires_at_is_receipt_time_plus_lifetime (E : Engine) :
  (forall refreshToken x token log,
     refreshAccessToken E refreshToken x = (Normal token, log) ->
     exists status raw j,
       reply x = Response status raw (Encodes j)
       /\ field token "expires_at"
          = VNum (num_add (num_div (Date_now (received_at x)) (Fin 1000))
                          (lifetime E (of_json j))))
  /\ (forall fuel auth net token log,
        pollForToken E fuel auth net = Some (Normal token, log) ->
        exists i raw j,
          S i = List.length (requests log)
          /\ reply (net i) = Response 200 raw (Encodes j)
          /\ field token "expires_at"
             = VNum (num_add
                       (num_div (Date_now (received_at (net i))) (Fin 1000))
                       (lifetime E (of_json j))))
  /\ (forall members,
        (assoc "expires_in" members = None ->
         lifetime E (of_json (JObj members)) = Fin 3600)
        /\ (forall v,
              assoc "expires_in" members = Some v ->
              lifetime E (of_json (JObj members))
              = if truthy (of_json v) then ToNumber E (of_json v)
                else Fin 3600))
  /\ (forall status raw members members' now,
        (forall k, k <> "expires_at" -> assoc k members = assoc k members') ->
        refresh_response E
          {| reply := Response status raw (Encodes (JObj members));
             received_at := now |}
        = refresh_response E
            {| reply := Response status raw (Encodes (JObj members'));
               received_at := now |}
        /\ poll_once E
             {| reply := Response status raw (Encodes (JObj members));
                received_at := now |}
           = poll_once E
               {| reply := Response status raw (Encodes (JObj members'));
                  received_at := now |}).
Proof.
  split; [|split; [|split]].
  - intros refreshToken x token log [= Hresponse _].
    destruct (refresh_response_token E x token Hresponse)
      as [status [raw [j [Hreply ->]]]].
    exists status, raw, j. split; [exact Hreply | reflexivity].
  - intros fuel auth net token log Hrun.
    destruct (poll_loop_finished E auth net _ fuel 0 _ _ Hrun)
      as [n [-> [_ Hend]]].
    destruct Hend as [[Hout _] | [m [-> [_ Hlast]]]]; [discriminate|].
    cbn [Nat.add] in Hlast.
    destruct (poll_once E (net m)) as [[token'|]|e] eqn:Honce;
      try contradiction; try discriminate.
    injection Hlast as <-.
    destruct (poll_once_token E _ _ Honce) as [raw [j [Hreply ->]]].
    exists m, raw, j. rewrite requests_poll_log.
    split; [reflexivity|]. split; [exact Hreply | reflexivity].
  - intros members. unfold lifetime. rewrite get_prop_members. split.
    + now intros ->.
    + now intros v ->.
  - intros status raw members members' now Hsame.
    assert (Hget : forall k, k <> "expires_at" ->
                     get_prop (of_json (JObj members)) k
                     = get_prop (of_json (JObj members')) k).
    { intros k Hk. now rewrite !get_prop_members, (Hsame k Hk). }
    unfold refresh_response, poll_once, token_of_response.
    cbn [reply received_at JSON_parse bind].
    rewrite (Hget "error_description"), (Hget "expires_in"),
      (Hget "access_token"), (Hget "refresh_token"), (Hget "scope"),
      (Hget "token_type"), (Hget "error") by discriminate.
    split; reflexivity.
Qed.

(** The amended C3 on a refresh answered with a lifetime of 900 seconds at
    millisecond 1000000, and on the same answer carrying an absolute
    [expires_at] of its own. *)
Lemma expires_at_is_receipt_time_plus_lifetime_witness :
  (exists status raw j,
     reply {| reply := token_reply; received_at := 1000000 |}
     = Response status raw (Encodes j)
     /\ field (token_built sample_engine
                 (of_json (JObj [ ("access_token", JStr "new-access");
                                  ("refresh_token", JStr "new-refresh");
                                  ("expires_in", JNum 900) ])) 1000000)
          "expires_at"
        = VNum (num_add (num_div (Date_now 1000000) (Fin 1000))
                        (lifetime sample_engine (of_json j))))
  /\ refresh_response sample_engine
       {| reply := token_reply; received_at := 1000000 |}
     = refresh_response sample_engine
         {| reply := body [ ("access_token", JStr "new-access");
                            ("refresh_token", JStr "new-refresh");
                            ("expires_in", JNum 900);
                            ("expires_at", JNum 99999) ] 200;
            received_at := 1000000 |}.
Proof.
  split.
  - apply (proj1 (expires_at_is_receipt_time_plus_lifetime sample_engine)
             (VStr "old-refresh")
             {| reply := token_reply; received_at := 1000000 |}
             _ [Fetch (RefreshGrant "old-refresh")]).
    reflexivity.
  - apply (proj2 (proj2 (proj2
             (expires_at_is_receipt_time_plus_lifetime sample_engine)))
             200%Z EmptyString
             [ ("access_token", JStr "new-access");
               ("refresh_token", JStr "new-refresh");
               ("expires_in", JNum 900) ]
             [ ("access_token", JStr "new-access");
               ("refresh_token", JStr "new-refresh");
               ("expires_in", JNum 900);
               ("expires_at", JNum 99999) ]
             1000000%Z).
    intros k Hk. simpl.
    destruct (String.eqb k "access_token"); [reflexivity|].
    destruct (String.eqb k "refresh_token"); [reflexivity|].
    destruct (String.eqb k "expires_in"); [reflexivity|].
    destruct (String.eqb k "expires_at") eqn:Hat; [|reflexivity].
    apply String.eqb_eq in Hat. contradiction.
Defined.

(** ** Refresh through the adapter *)

Lemma truthy_get_prop (data : value) (k : string) :
  truthy data = true -> get_prop data k = Normal (field data k).
Proof.
  unfold field. destruct data; simpl; try discriminate; reflexivity.
Qed.

Lemma loadKimiCliToken_total (fs : filesystem) :
  exists disk, loadKimiCliToken fs = Normal disk.
Proof. rewrite loadKimiCliToken_cases. eauto. Qed.

Lemma credentials_of_truthy (E : Engine) (token : value) :
  truthy token = true ->
  credentials_of E token = Normal (credentials_for E token).
Proof.
  intros Ht. unfold credentials_of, credentials_for.
  now rewrite !(truthy_get_prop _ _ Ht).
Qed.

Lemma refreshKimiCoderToken_begin_cases (E : Engine) (fs : filesystem)
  (credentials : OAuthCredentials) (now : Z) (disk : value) :
  loadKimiCliToken fs = Normal disk ->
  refreshKimiCoderToken_begin E fs credentials now
  = if truthy disk
       && negb (strict_eq (field disk "access_token") (access credentials))
       && num_gtb (ToNumber E (field disk "expires_at"))
                  (seconds_from now 300)
    then Settled (Normal (credentials_for E disk))
    else Awaiting (RefreshGrant (ToString E (refresh credentials))).
Proof.
  intros Hload. unfold refreshKimiCoderToken_begin, disk_is_fresher.
  rewrite Hload. cbn [bind].
  destruct (truthy disk) eqn:Ht; cbn [negb andb bind]; [|reflexivity].
  rewrite !(truthy_get_prop _ _ Ht). cbn [bind].
  destruct (strict_eq _ _); cbn [negb andb bind]; [reflexivity|].
  destruct (num_gtb _ _); [|reflexivity].
  now rewrite (credentials_of_truthy E _ Ht).
Qed.

Lemma token_built_truthy (E : Engine) (data : value) (now : Z) :
  truthy (token_built E data now) = true.
Proof. reflexivity. Qed.

(** C1, as stated, fails at the boundary: the token on disk differs from
    the cached one and is valid for exactly 300 more seconds, yet the
    refresh endpoint is called. *)
Lemma refresh_calls_network_at_exactly_300_seconds :
  loadKimiCliToken (sample_files Missing) = Normal (of_json sample_token)
  /\ strict_eq (field (of_json sample_token) "access_token")
       (access sample_credentials) = false
  /\ num_eqb
       (num_sub (ToNumber sample_engine
                   (field (of_json sample_token) "expires_at"))
                (num_div (Date_now 4700000) (Fin 1000)))
       (Fin 300) = true
  /\ snd (refreshKimiCoderToken sample_engine (sample_files Missing)
            sample_credentials 4700000
            {| reply := token_reply; received_at := 4700100 |})
     = [Fetch (RefreshGrant "old-refresh")].
Proof. repeat split; vm_compute; reflexivity. Qed.

(** C1, amended: when the companion store holds a token whose access token
    differs from the cached credential's and that is valid for strictly
    more than 300 seconds, [refreshKimiCoderToken] returns that token
    (expiry converted to milliseconds), posts nothing and writes nothing.
    Otherwise it posts exactly one refresh grant, with the cached refresh
    token; when the endpoint answers with a token, the credentials of that
    token are returned and the token is saved to the companion store (the
    file then holds it, unless the file cannot be written, which is
    ignored); when the call fails, the failure is returned and nothing is
    written. *)
Theorem refresh_prefers_fresher_disk_token (E : Engine) (fs : filesystem)
  (credentials : OAuthCredentials) (now : Z) (x : exchange) :
  (forall disk,
     fresher_on_disk E fs credentials now disk ->
     refreshKimiCoderToken E fs credentials now x
     = (Normal (credentials_for E disk), fs, []))
  /\ ((exists disk, fresher_on_disk E fs credentials now disk)
      \/ exists result fs',
           refreshKimiCoderToken E fs credentials now x
           = (result, fs',
              [Fetch (RefreshGrant (ToString E (refresh credentials)))])
           /\ match refresh_response E x with
              | Normal token =>
                  result = Normal (credentials_for E token)
                  /\ pi_auth fs' = pi_auth fs
                  /\ if kimi_cli_writable fs
                     then exists j,
                         to_json token = Some j
                         /\ kimi_cli_credentials fs' = Holds (Encodes j)
                     else fs' = fs
              | Throw e => result = Throw e /\ fs' = fs
              end).
Proof.
  destruct (loadKimiCliToken_total fs) as [disk Hload].
  pose proof (refreshKimiCoderToken_begin_cases E fs credentials now disk
                Hload) as Hbegin.
  split.
  - intros disk' [Hload' [Ht [Ha He]]].
    rewrite Hload in Hload'. injection Hload' as <-.
    unfold refreshKimiCoderToken. rewrite Hbegin, Ht, Ha, He. reflexivity.
  - destruct (truthy disk
              && negb (strict_eq (field disk "access_token")
                         (access credentials))
              && num_gtb (ToNumber E (field disk "expires_at"))
                         (seconds_from now 300)) eqn:Hfresh.
    + left. exists disk.
      apply andb_true_iff in Hfresh. destruct Hfresh as [Hfresh He].
      apply andb_true_iff in Hfresh. destruct Hfresh as [Ht Ha].
      apply negb_true_iff in Ha. now repeat split.
    + right. unfold refreshKimiCoderToken, refreshKimiCoderToken_resume.
      rewrite Hbegin.
      destruct (refresh_response E x) as [token|e] eqn:Hresponse;
        [|eauto].
      destruct (refresh_response_token E x token Hresponse)
        as [status [raw [j [_ ->]]]].
      rewrite (credentials_of_truthy E _ (token_built_truthy E _ _)).
      unfold saveKimiCliToken, mkdirSync, writeFileSync, JSON_stringify.
      cbn [writable].
      destruct (kimi_cli_writable fs) eqn:Hw; cbn [bind try_catch].
      * destruct (to_json (token_built E (of_json j) (received_at x)))
          as [tj|] eqn:Htj; [|discriminate].
        eexists. eexists. split; [reflexivity|].
        split; [reflexivity|]. split; [reflexivity|]. eauto.
      * eexists. eexists. split; [reflexivity|]. auto.
Qed.

(** The amended C1 with the sample token on disk (valid until second
    5000) at millisecond 1000000: it is returned and nothing is posted. *)
Lemma refresh_prefers_fresher_disk_token_witness :
  refreshKimiCoderToken sample_engine (sample_files Missing)
    sample_credentials 1000000
    {| reply := token_reply; received_at := 1000100 |}
  = (Normal {| refresh := VStr "disk-refresh";
               access := VStr "disk-access";
               expires := num_mul (Fin 5000) (Fin 1000) |},
     sample_files Missing, []).
Proof.
  apply (proj1 (refresh_prefers_fresher_disk_token sample_engine
                  (sample_files Missing) sample_credentials 1000000
                  {| reply := token_reply; received_at := 1000100 |})
           (of_json sample_token)).
  repeat split.
Defined.

(** ** The refresh scheduler *)

Lemma due_for_refresh_cases (E : Engine) (fs : filesystem) (now : Z)
  (token : value) :
  loadKimiCliToken fs = Normal token ->
  due_for_refresh E fs now
  = Normal (if has_truthy token "refresh_token"
               && num_ltb (num_sub (ToNumber E (field token "expires_at"))
                                   (num_div (Date_now now) (Fin 1000)))
                          (Fin 300)
            then Some (field token "refresh_token")
            else None).
Proof.
  intros Hload. unfold due_for_refresh. rewrite Hload. cbn [bind].
  destruct (truthy token) eqn:Ht; cbn [negb].
  - unfold has_truthy. rewrite !(truthy_get_prop _ _ Ht). cbn [bind].
    destruct (truthy (field token "refresh_token")); cbn [negb andb];
      [|reflexivity].
    now destruct (num_ltb _ _).
  - destruct (has_truthy token "refresh_token") eqn:Hr; [|reflexivity].
    apply has_truthy_truthy in Hr. congruence.
Qed.

Lemma start_refresh_if_due_timers (E : Engine) (who : caller) (now : Z)
  (s : extension) :
  refreshInterval (start_refresh_if_due E who now s) = refreshInterval s
  /\ intervals (start_refresh_if_due E who now s) = intervals s.
Proof.
  unfold start_refresh_if_due.
  destruct (due_for_refresh E (files s) now) as [[r|]|]; auto.
Qed.

Lemma settle_timers (E : Engine) (who : caller) (x : exchange)
  (s : extension) :
  refreshInterval (settle E who x s) = refreshInterval s
  /\ intervals (settle E who x s) = intervals s.
Proof.
  unfold settle, adopt.
  destruct who as [hasUI | | ]; [| |auto];
    destruct (refresh_response E x) as [refreshed|]; cbn [bind]; auto;
    destruct (saveKimiCliToken (files s) refreshed) as [fs'|]; cbn [bind];
    auto;
    destruct (get_prop refreshed "access_token") as [a|]; cbn [bind]; auto.
Qed.

Lemma step_one_timer (E : Engine) (s s' : extension) (i : input) :
  one_timer s -> step E s i = Some s' -> one_timer s'.
Proof.
  unfold one_timer. intros Hone.
  destruct i as [hasUI now | | h now | | credentials now | k x | f];
    cbn [step].
  - intros [= <-]. unfold on_session_start.
    destruct (start_refresh_if_due_timers E (session_start_handler hasUI)
                now (with_notice (seeded s && hasUI)
                       "Kimi Coder: using kimi-cli credentials" s))
      as [-> ->].
    exact Hone.
  - intros [= <-]. unfold on_agent_start.
    destruct (refreshInterval s) as [h|] eqn:Hhandle; [now rewrite Hhandle|].
    cbn. now rewrite Hone.
  - destruct (existsb _ _); [|discriminate]. intros [= <-].
    unfold on_interval.
    destruct (start_refresh_if_due_timers E interval_callback now s)
      as [-> ->].
    exact Hone.
  - intros [= <-]. unfold on_session_shutdown.
    destruct (refreshInterval s) as [h|] eqn:Hhandle; [|now rewrite Hhandle].
    cbn. rewrite Hone. cbn. now rewrite Nat.eqb_refl.
  - destruct (refreshKimiCoderToken_begin E (files s) credentials now);
      intros [= <-]; exact Hone.
  - destruct (nth_error (in_flight s) k) as [call|]; [|discriminate].
    intros [= <-].
    destruct (settle_timers E (waiting call) x
                (with_in_flight (drop_nth k (in_flight s)) s)) as [-> ->].
    exact Hone.
  - intros [= <-]. exact Hone.
Qed.

Lemma run_one_timer (E : Engine) (inputs : list input) :
  forall s s', one_timer s -> run E s inputs = Some s' -> one_timer s'.
Proof.
  induction inputs as [|i rest IH]; intros s s' Hone; cbn [run].
  - now intros [= <-].
  - destruct (step E s i) as [s1|] eqn:Hstep; [|discriminate].
    apply IH. exact (step_one_timer E s s1 i Hone Hstep).
Qed.

Lemma activate_one_timer (E : Engine) (fs : filesystem)
  (env : option string) (now now1 now2 : Z) (s : extension) :
  activate E fs env now now1 now2 = Normal s -> one_timer s.
Proof.
  unfold activate.
  destruct (if negb (env_truthy env) then _ else _) as [imported|];
    cbn [bind]; [|discriminate].
  destruct (seedPiAuthFromKimiCli E fs now1 now2) as [seed|]; cbn [bind];
    [|discriminate].
  intros [= <-]. reflexivity.
Qed.

(** C9, as stated, fails: nothing in the handlers looks at the refreshes
    already in flight.  With the sample token 100 seconds from expiry, two
    firings of the interval ten minutes apart, the first refresh still
    unanswered, leave two refresh calls in flight; so do a session start
    followed by one firing, and a firing followed a millisecond later by
    the host's own call of [refreshKimiCoderToken]. *)
Lemma refreshes_can_overlap :
  exists s0 s s',
    activate sample_engine (sample_files Missing) None
      4900000 4900000 4900000 = Normal s0
    /\ run sample_engine s0
         [ agent_start;
           interval_fires 0 4900000;
           interval_fires 0 5500000 ] = Some s
    /\ in_flight s
       = [ interval_call sample_engine (VStr "disk-refresh");
           interval_call sample_engine (VStr "disk-refresh") ]
    /\ run sample_engine s0
         [ session_start true 4900000;
           agent_start;
           interval_fires 0 5500000 ] = Some s'
    /\ List.length (in_flight s') = 2
    /\ exists s'',
         run sample_engine s0
           [ agent_start;
             interval_fires 0 4900000;
             host_calls_refresh sample_credentials 4900001 ] = Some s''
         /\ in_flight s''
            = [ interval_call sample_engine (VStr "disk-refresh");
                {| waiting := host_refresh;
                   posted := RefreshGrant "old-refresh" |} ].
Proof.
  eexists. eexists. eexists.
  split; [vm_compute; reflexivity|].
  split; [vm_compute; reflexivity|].
  split; [vm_compute; reflexivity|].
  split; [vm_compute; reflexivity|].
  split; [vm_compute; reflexivity|].
  eexists. split; vm_compute; reflexivity.
Qed.

(** C9, amended: in every state a loaded extension can reach, at most one
    refresh timer is set ([agent_start] sets one only when
    [refreshInterval] is null, [session_shutdown] clears it); and a firing
    of the timer decides by the stored token alone: when that token has a
    truthy refresh token and fewer than 300 seconds left, one more refresh
    call joins those already in flight, otherwise none does.  Nothing is
    skipped or queued on account of a refresh that is still outstanding. *)
Theorem at_most_one_refresh_timer (E : Engine) (fs : filesystem)
  (env : option string) (now now1 now2 : Z) (inputs : list input)
  (s0 s : extension) :
  activate E fs env now now1 now2 = Normal s0 ->
  run E s0 inputs = Some s ->
  one_timer s
  /\ List.length (intervals s) <= 1
  /\ (forall now' token,
        due E (files s) now' token ->
        in_flight (on_interval E now' s)
        = (in_flight s
           ++ [interval_call E (field token "refresh_token")])%list)
  /\ (forall now',
        (forall token, ~ due E (files s) now' token) ->
        in_flight (on_interval E now' s) = in_flight s).
Proof.
  intros Hstart Hrun.
  assert (Hone : one_timer s).
  { exact (run_one_timer E inputs s0 s
             (activate_one_timer E fs env now now1 now2 s0 Hstart) Hrun). }
  split; [exact Hone|]. split.
  - rewrite Hone. destruct (refreshInterval s); cbn; lia.
  - destruct (loadKimiCliToken_total (files s)) as [disk Hload].
    pose proof (due_for_refresh_cases E (files s)) as Hcases.
    split.
    + intros now' token [Hload' [Hr Hsoon]].
      unfold on_interval, start_refresh_if_due.
      rewrite (Hcases now' token Hload'), Hr, Hsoon. reflexivity.
    + intros now' Hnone.
      unfold on_interval, start_refresh_if_due.
      rewrite (Hcases now' disk Hload).
      destruct (has_truthy disk "refresh_token"
                && num_ltb _ (Fin 300)) eqn:Hdue; [|reflexivity].
      apply andb_true_iff in Hdue. destruct Hdue as [Hr Hsoon].
      exfalso. apply (Hnone disk). now repeat split.
Qed.

(** The amended C9 after the overlapping run of the counterexample: one
    timer, and a third firing adds a third call. *)
Lemma at_most_one_refresh_timer_witness :
  exists s0 s,
    activate sample_engine (sample_files Missing) None
      4900000 4900000 4900000 = Normal s0
    /\ run sample_engine s0
         [ agent_start;
           interval_fires 0 4900000;
           interval_fires 0 5500000 ] = Some s
    /\ one_timer s
    /\ List.length (intervals s) <= 1.
Proof.
  eexists. eexists.
  split; [vm_compute; reflexivity|].
  split; [vm_compute; reflexivity|].
  split.
  - apply (proj1 (at_most_one_refresh_timer sample_engine
                    (sample_files Missing) None 4900000 4900000 4900000
                    [ agent_start;
                      interval_fires 0 4900000;
                      interval_fires 0 5500000 ]
                    _ _ eq_refl eq_refl)).
  - apply (proj1 (proj2 (at_most_one_refresh_timer sample_engine
                           (sample_files Missing) None
                           4900000 4900000 4900000
                           [ agent_start;
                             interval_fires 0 4900000;
                             interval_fires 0 5500000 ]
                           _ _ eq_refl eq_refl))).
Defined.

(* ================================================================== *)
(** * Further properties of the code *)
(* ================================================================== *)

(** ** Saving and loading the companion token *)

Lemma has_truthy_field (data : value) (k : string) :
  has_truthy data k = truthy (field data k).
Proof.
  unfold has_truthy, field. now destruct (get_prop data k).
Qed.

Lemma string_truthy (s : string) :
  s <> EmptyString -> truthy (VStr s) = true.
Proof.
  intros Hs. simpl. apply negb_true_iff. now apply String.eqb_neq.
Qed.

(** X1: a token built from a token response, once saved, is what
    [loadKimiCliToken] returns, field for field, provided the file can be
    written, its expiry is a finite number and its two token strings are
    not empty; the broker file is not touched. *)
Theorem saved_token_is_loaded_back (E : Engine) (fs : filesystem)
  (data : value) (now : Z) (q : Q) :
  kimi_cli_writable fs = true ->
  num_add (num_div (Date_now now) (Fin 1000)) (lifetime E data) = Fin q ->
  ToString E (field data "access_token") <> EmptyString ->
  ToString E (field data "refresh_token") <> EmptyString ->
  exists fs',
    saveKimiCliToken fs (token_built E data now) = Normal fs'
    /\ loadKimiCliToken fs' = Normal (token_built E data now)
    /\ only_credentials_written fs fs'.
Proof.
  intros Hw Hfinite Ha Hr.
  unfold saveKimiCliToken, mkdirSync, writeFileSync, JSON_stringify.
  cbn [writable]. rewrite Hw. cbn [bind try_catch].
  unfold token_built. cbn [to_json flat_map app]. rewrite Hfinite.
  cbn [app bind try_catch].
  eexists. split; [reflexivity|]. split.
  - rewrite loadKimiCliToken_cases. cbn [kimi_cli_credentials put_file].
    unfold has_truthy. cbn.
    apply String.eqb_neq in Ha, Hr. now rewrite Ha, Hr.
  - now repeat split.
Qed.

(** X1 on the token the sample refresh answer yields at millisecond
    1000100. *)
Lemma saved_token_is_loaded_back_witness :
  exists fs',
    saveKimiCliToken (sample_files other_provider)
      (token_built sample_engine
         (of_json (JObj [ ("access_token", JStr "new-access");
                          ("refresh_token", JStr "new-refresh");
                          ("expires_in", JNum 900) ])) 1000100)
    = Normal fs'
    /\ loadKimiCliToken fs'
       = Normal (token_built sample_engine
                   (of_json (JObj [ ("access_token", JStr "new-access");
                                    ("refresh_token", JStr "new-refresh");
                                    ("expires_in", JNum 900) ])) 1000100)
    /\ only_credentials_written (sample_files other_provider) fs'.
Proof.
  apply (saved_token_is_loaded_back sample_engine
           (sample_files other_provider) _ 1000100
           (inject_Z 1000100 / 1000 + 900)).
  - reflexivity.
  - reflexivity.
  - discriminate.
  - discriminate.
Defined.

(** X2: [saveKimiCliToken] never throws and never touches the broker
    file; when the credentials file cannot be written, or the token is
    [undefined], the file system is left exactly as it was; otherwise the
    credentials file holds the JSON of the token. *)
Theorem saveKimiCliToken_fails_silently (fs : filesystem)
  (token : KimiToken) :
  exists fs',
    saveKimiCliToken fs token = Normal fs'
    /\ only_credentials_written fs fs'
    /\ (kimi_cli_writable fs = false \/ to_json token = None -> fs' = fs)
    /\ (forall j,
          kimi_cli_writable fs = true -> to_json token = Some j ->
          kimi_cli_credentials fs' = Holds (Encodes j)).
Proof.
  unfold saveKimiCliToken, mkdirSync, writeFileSync, JSON_stringify.
  cbn [writable].
  destruct (kimi_cli_writable fs) eqn:Hw; cbn [bind try_catch].
  - destruct (to_json token) as [j|] eqn:Hj; cbn [try_catch].
    + eexists. split; [reflexivity|]. split; [now repeat split|]. split.
      * intros [H | H]; discriminate.
      * now intros j' _ [= <-].
    + exists fs. split; [reflexivity|]. split; [now repeat split|]. split.
      * reflexivity.
      * intros j' _ H. discriminate.
  - exists fs. split; [reflexivity|]. split; [now repeat split|]. split.
    + reflexivity.
    + intros j' H. discriminate.
Qed.

(** ** Seeding the broker store *)

(** What [seedPiAuthFromKimiCli] does once the companion token has passed
    its checks and the broker file is absent or holds an object. *)
Lemma seed_run (E : Engine) (fs : filesystem) (now now' : Z)
  (token : list (string * json)) (ja jr : json) (ev : value)
  (members : list (string * json)) (entry : json) :
  kimi_cli_credentials fs = Holds (Encodes (JObj token)) ->
  assoc "access_token" token = Some ja -> truthy (of_json ja) = true ->
  assoc "refresh_token" token = Some jr -> truthy (of_json jr) = true ->
  field (of_json (JObj token)) "expires_at" = ev ->
  num_ltb (ToNumber E ev) (seconds_from now 60) = false ->
  broker_members (pi_auth fs) = Some members ->
  to_json (seeded_entry E (of_json jr) (of_json ja) ev) = Some entry ->
  seedPiAuthFromKimiCli E fs now now'
  = if still_valid E (assoc PROVIDER_NAME members) now'
    then Normal (true, fs)
    else if pi_auth_writable fs
         then Normal (true,
                      put_file fs PI_AUTH_PATH
                        (Holds (Encodes
                                  (JObj (assoc_set PROVIDER_NAME entry
                                           members)))))
         else Normal (false, fs).
Proof.
  intros Hfile Ha Hta Hr Htr Hev Hlate Hmembers Hentry.
  assert (Hga : get_prop (of_json (JObj token)) "access_token"
                = Normal (of_json ja)).
  { rewrite get_prop_members. now rewrite Ha. }
  assert (Hgr : get_prop (of_json (JObj token)) "refresh_token"
                = Normal (of_json jr)).
  { rewrite get_prop_members. now rewrite Hr. }
  assert (Hge : get_prop (of_json (JObj token)) "expires_at" = Normal ev).
  { rewrite <- Hev. apply (truthy_get_prop (of_json (JObj token))).
    reflexivity. }
  assert (Hload : loadKimiCliToken fs = Normal (of_json (JObj token))).
  { rewrite loadKimiCliToken_cases, Hfile. unfold has_truthy.
    now rewrite Hga, Hgr, Hta, Htr. }
  unfold seedPiAuthFromKimiCli. rewrite Hload.
  cbn [bind]. change (truthy (of_json (JObj token))) with true.
  cbn [negb]. rewrite Hga. cbn [bind]. rewrite Hta. cbn [negb].
  rewrite Hge. cbn [bind]. rewrite Hlate.
  rewrite (seed_attempt_upserts E fs _ _ _ _ now' members entry Hmembers
             Hgr Hentry).
  destruct (still_valid E _ now'); [reflexivity|].
  now destruct (pi_auth_writable fs).
Qed.

Lemma seed_attempt_unusable (E : Engine) (fs : filesystem)
  (token a e : value) (now' : Z) :
  unusable_broker_file (pi_auth fs) = true ->
  exists thrown, seed_attempt E fs token a e now' = Throw thrown.
Proof.
  unfold seed_attempt, existsSync, readFileSync. simpl file_at.
  destruct (pi_auth fs) as [ | | [ | [ | b | q | s | items | members ] ] ];
    try discriminate; intros _; cbn; eauto;
    destruct (get_prop token "refresh_token"); cbn; eauto.
Qed.

(** X3: a broker file that is unreadable, is not JSON, or is the JSON
    [null] is never overwritten: [seedPiAuthFromKimiCli] answers [false]
    and leaves the file system as it was, whatever the companion token. *)
Theorem seed_leaves_unusable_auth_file (E : Engine) (fs : filesystem)
  (now now' : Z) :
  unusable_broker_file (pi_auth fs) = true ->
  seedPiAuthFromKimiCli E fs now now' = Normal (false, fs).
Proof.
  intros Hbad. unfold seedPiAuthFromKimiCli.
  destruct (loadKimiCliToken_total fs) as [token ->]. cbn [bind].
  destruct (truthy token) eqn:Ht; cbn [negb]; [|reflexivity].
  rewrite !(truthy_get_prop _ _ Ht). cbn [bind].
  destruct (truthy (field token "access_token")); cbn [negb];
    [|reflexivity].
  destruct (num_ltb _ _); [reflexivity|].
  destruct (seed_attempt_unusable E fs token (field token "access_token")
              (field token "expires_at") now' Hbad) as [thrown ->].
  reflexivity.
Qed.

(** X3 on a malformed auth.json next to the sample token. *)
Lemma seed_leaves_unusable_auth_file_witness :
  seedPiAuthFromKimiCli sample_engine (sample_files (Holds Malformed))
    1000000 1000000
  = Normal (false, sample_files (Holds Malformed)).
Proof.
  apply (seed_leaves_unusable_auth_file sample_engine
           (sample_files (Holds Malformed)) 1000000 1000000).
  reflexivity.
Defined.

(** X4: a companion token without [expires_at] passes the 60-second check
    (the comparison with NaN is false) and is seeded with [expires: null]:
    when the broker file is absent or holds an object without a valid
    entry, and can be written, the provider's entry becomes
    [{type, refresh, access, expires: null}]. *)
Theorem seed_without_expiry_writes_null (E : Engine) (fs : filesystem)
  (now now' : Z) (token : list (string * json)) (ja jr : json)
  (members : list (string * json)) :
  kimi_cli_credentials fs = Holds (Encodes (JObj token)) ->
  assoc "access_token" token = Some ja -> truthy (of_json ja) = true ->
  assoc "refresh_token" token = Some jr -> truthy (of_json jr) = true ->
  assoc "expires_at" token = None ->
  broker_members (pi_auth fs) = Some members ->
  still_valid E (assoc PROVIDER_NAME members) now' = false ->
  pi_auth_writable fs = true ->
  exists fs',
    seedPiAuthFromKimiCli E fs now now' = Normal (true, fs')
    /\ broker_entry (pi_auth fs') PROVIDER_NAME
       = Some (JObj [ ("type", JStr "oauth");
                      ("refresh", jr);
                      ("access", ja);
                      ("expires", JNull) ]).
Proof.
  intros Hfile Ha Hta Hr Htr He Hmembers Hstale Hw.
  rewrite (seed_run E fs now now' token ja jr VUndef members
             (JObj [ ("type", JStr "oauth"); ("refresh", jr);
                     ("access", ja); ("expires", JNull) ])
             Hfile Ha Hta Hr Htr).
  - rewrite Hstale, Hw. eexists. split; [reflexivity|].
    simpl. apply assoc_set_same.
  - unfold field. rewrite get_prop_members. now rewrite He.
  - reflexivity.
  - exact Hmembers.
  - unfold seeded_entry. cbn [to_json flat_map].
    rewrite !to_json_of_json. reflexivity.
Qed.

(** X4 on a credentials file holding nothing but the two tokens. *)
Lemma seed_without_expiry_writes_null_witness :
  exists fs',
    seedPiAuthFromKimiCli sample_engine token_without_expiry
      1000000 1000000 = Normal (true, fs')
    /\ broker_entry (pi_auth fs') PROVIDER_NAME
       = Some (JObj [ ("type", JStr "oauth");
                      ("refresh", JStr "r");
                      ("access", JStr "a");
                      ("expires", JNull) ]).
Proof.
  apply (seed_without_expiry_writes_null sample_engine token_without_expiry
           1000000 1000000
           [ ("access_token", JStr "a"); ("refresh_token", JStr "r") ]
           (JStr "a") (JStr "r")
           [ ("other-provider",
              JObj [ ("type", JStr "api_key"); ("key", JStr "sk-1") ]) ]);
    reflexivity.
Defined.

(** X5: seeding is idempotent.  For a companion token with a numeric
    expiry at least 60 seconds ahead, a broker file that is absent or
    holds an object, and a second clock reading before the token expires:
    when [seedPiAuthFromKimiCli] answers [true], running it again on the
    result at the same instants answers [true] and changes nothing. *)
Theorem seed_twice_is_seed_once (E : Engine) (fs fs' : filesystem)
  (now now' : Z) (token : list (string * json)) (ja jr : json) (e : Q)
  (members : list (string * json)) :
  kimi_cli_credentials fs = Holds (Encodes (JObj token)) ->
  assoc "access_token" token = Some ja -> truthy (of_json ja) = true ->
  assoc "refresh_token" token = Some jr -> truthy (of_json jr) = true ->
  assoc "expires_at" token = Some (JNum e) ->
  (inject_Z now / 1000 + 60 <= e)%Q ->
  (inject_Z now' < e * 1000)%Q ->
  broker_members (pi_auth fs) = Some members ->
  seedPiAuthFromKimiCli E fs now now' = Normal (true, fs') ->
  seedPiAuthFromKimiCli E fs' now now' = Normal (true, fs').
Proof.
  intros Hfile Ha Hta Hr Htr He Hlate Hvalid Hmembers Hfirst.
  assert (Hev : field (of_json (JObj token)) "expires_at" = VNum (Fin e)).
  { unfold field. rewrite get_prop_members. now rewrite He. }
  assert (Hcheck : num_ltb (ToNumber E (VNum (Fin e))) (seconds_from now 60)
                   = false).
  { rewrite seconds_from_eq. cbn [ToNumber num_ltb]. now apply Qltb_ge. }
  pose proof (seed_run E fs now now' token ja jr _ members _
                Hfile Ha Hta Hr Htr Hev Hcheck Hmembers
                (seeded_entry_of_json E jr ja e)) as Hrun.
  rewrite Hrun in Hfirst.
  destruct (still_valid E (assoc PROVIDER_NAME members) now') eqn:Hstill.
  - injection Hfirst as <-. exact Hrun.
  - destruct (pi_auth_writable fs) eqn:Hw; [|discriminate].
    injection Hfirst as <-.
    match goal with
    | |- seedPiAuthFromKimiCli E ?written _ _ = _ =>
        rewrite (seed_run E written now now' token ja jr _
                   (assoc_set PROVIDER_NAME
                      (JObj [ ("type", JStr "oauth"); ("refresh", jr);
                              ("access", ja);
                              ("expires", JNum (e * 1000)) ])
                      members) _
                   Hfile Ha Hta Hr Htr Hev Hcheck eq_refl
                   (seeded_entry_of_json E jr ja e))
    end.
    rewrite assoc_set_same.
    assert (Hnow : still_valid E
                     (Some (JObj [ ("type", JStr "oauth"); ("refresh", jr);
                                   ("access", ja);
                                   ("expires", JNum (e * 1000)) ])) now'
                   = true).
    { unfold still_valid, already_seeded. cbn. rewrite Hta. cbn.
      unfold num_gtb, Date_now, num_of_Z. cbn. now apply Qltb_lt. }
    now rewrite Hnow.
Qed.

(** X5 on the sample token and an auth.json with another provider. *)
Lemma seed_twice_is_seed_once_witness :
  exists fs',
    seedPiAuthFromKimiCli sample_engine (sample_files other_provider)
      1000000 1000000 = Normal (true, fs')
    /\ seedPiAuthFromKimiCli sample_engine fs' 1000000 1000000
       = Normal (true, fs').
Proof.
  eexists. split; [vm_compute; reflexivity|].
  apply (seed_twice_is_seed_once sample_engine
           (sample_files other_provider) _ 1000000 1000000
           [ ("access_token", JStr "disk-access");
             ("refresh_token", JStr "disk-refresh");
             ("expires_at", JNum 5000);
             ("scope", JStr "kimi-code");
             ("token_type", JStr "Bearer") ]
           (JStr "disk-access") (JStr "disk-refresh") 5000
           [ ("other-provider",
              JObj [ ("type", JStr "api_key"); ("key", JStr "sk-1") ]) ]);
    try reflexivity.
  unfold Qle. simpl. lia.
Defined.

(** ** The device flow *)

Lemma ceiling_of_quotient (n q : Q) :
  (1 <= q)%Q ->
  (Z.to_nat (Qceiling (n / q)) <= Z.to_nat (Qceiling n))%nat.
Proof.
  intros Hq.
  destruct (Qlt_le_dec n 0) as [Hneg | Hpos].
  - assert (H : (Qceiling (n / q) <= 0)%Z).
    { rewrite <- (Qceiling_Z 0). apply Qceiling_resp_le.
      apply Qle_shift_div_r; [lra|]. change (inject_Z 0) with 0%Q. lra. }
    lia.
  - assert (H : (Qceiling (n / q) <= Qceiling n)%Z).
    { apply Qceiling_resp_le. apply Qle_shift_div_r; [lra|]. nra. }
    lia.
Qed.

Lemma at_least_one_positive (q : Q) :
  num_ltb (Fin q) (Fin 1) = false -> (1 <= q)%Q /\ (0 < Qnum q)%Z.
Proof.
  simpl. intros H. apply Qltb_ge in H. split; [exact H|].
  unfold Qle in H. simpl in H. lia.
Qed.

(** X6: polling for a device authorization the server handed out always
    ends, unless its lifetime is infinite: [requestDeviceAuthorization]
    floors the interval at one second, so the attempts number at most
    [ceil(expires_in)] for a finite lifetime, and 120 when the lifetime is
    absent, zero or not a number. *)
Theorem authorized_polling_ends (E : Engine) (r : http)
  (auth : DeviceAuthorization) (net : nat -> exchange) :
  requestDeviceAuthorization E r = Normal auth ->
  expires_in auth <> Some (Inf false) ->
  exists M,
    ends_within E auth net M
    /\ M <= match expires_in auth with
            | Some (Fin n) => Nat.max 120 (Z.to_nat (Qceiling n))
            | _ => 120
            end.
Proof.
  intros Hauth Hfinite.
  pose proof (requestDeviceAuthorization_interval E r auth Hauth) as Hfloor.
  assert (Hbound : exists M,
             attempts_of (maxAttempts auth) = Some M
             /\ M <= match expires_in auth with
                     | Some (Fin n) => Nat.max 120 (Z.to_nat (Qceiling n))
                     | _ => 120
                     end).
  { unfold maxAttempts.
    destruct (expires_in auth) as [[ | [|] | n ]|];
      try (exists 120; split; [reflexivity | lia]); [ | | ].
    - (* minus infinity *)
      cbn [num_truthy].
      destruct (interval auth) as [ | t | q ];
        try (exists 0; split; [reflexivity | lia]).
      destruct Hfloor as [Hnan | Hge]; [discriminate|].
      destruct (at_least_one_positive q Hge) as [_ Hpos].
      exists 0. split; [|lia]. unfold num_div, Qis_neg.
      replace (Qnum q <? 0)%Z with false by (symmetry; apply Z.ltb_ge; lia).
      reflexivity.
    - congruence.
    - destruct (num_truthy (Fin n));
        [|exists 120; split; [reflexivity | lia]].
      destruct (interval auth) as [ | t | q ];
        try (exists 0; split; [reflexivity | lia]).
      destruct Hfloor as [Hnan | Hge]; [discriminate|].
      destruct (at_least_one_positive q Hge) as [Hone Hpos].
      exists (Z.to_nat (Qceiling (n / q))). split.
      + unfold num_div, Qis_zero.
        replace (Qnum q =? 0)%Z with false
          by (symmetry; apply Z.eqb_neq; lia).
        cbn [Math_ceil attempts_of]. now rewrite Qceiling_Z.
      + pose proof (ceiling_of_quotient n q Hone). lia. }
  destruct Hbound as [M [HM Hle]].
  exists M. split; [|exact Hle].
  now apply pollForToken_ends_within.
Qed.

(** X6 on the usual device authorization: 900 seconds, every 5 seconds. *)
Lemma authorized_polling_ends_witness :
  exists M,
    ends_within sample_engine
      (sample_auth (Some (Fin 900)) (Fin 5)) always_pending M
    /\ M <= Nat.max 120 (Z.to_nat (Qceiling 900)).
Proof.
  apply (authorized_polling_ends sample_engine usual_authorization
           (sample_auth (Some (Fin 900)) (Fin 5)) always_pending).
  - reflexivity.
  - discriminate.
Defined.

(** X7: a successful device authorization response is never refused for
    what it lacks.  Whatever the members of its JSON object,
    [requestDeviceAuthorization] returns an authorization; a missing
    [user_code], [device_code] or [verification_uri_complete] becomes the
    string "undefined", a missing [verification_uri] the empty string, a
    missing [expires_in] null and a missing [interval] 5 seconds; and
    because "undefined" is not empty, the URI handed to [onDeviceCode]
    for a response without [verification_uri_complete] is "undefined",
    not [verification_uri]. *)
Theorem device_authorization_missing_members (E : Engine) (status : Z)
  (raw : string) (members : list (string * json)) :
  response_ok status = true ->
  exists auth,
    requestDeviceAuthorization E
      (Response status raw (Encodes (JObj members))) = Normal auth
    /\ (assoc "user_code" members = None -> user_code auth = "undefined")
    /\ (assoc "device_code" members = None -> device_code auth = "undefined")
    /\ (assoc "verification_uri" members = None ->
        verification_uri auth = EmptyString)
    /\ (assoc "expires_in" members = None -> expires_in auth = None)
    /\ (assoc "interval" members = None -> interval auth = Fin 5)
    /\ (assoc "verification_uri_complete" members = None ->
        verification_uri_complete auth = "undefined"
        /\ device_code_shown auth
           = [ Did (Fetch DeviceAuthorizationRequest);
               OnDeviceCode (user_code auth) "undefined" ]).
Proof.
  intros Hok. unfold requestDeviceAuthorization. rewrite Hok.
  cbn [negb JSON_parse bind]. rewrite !get_prop_members. cbn [bind].
  eexists. split; [reflexivity|].
  cbn [user_code device_code verification_uri verification_uri_complete
       expires_in interval].
  repeat match goal with |- _ /\ _ => split end;
    intros Hnone; rewrite Hnone; try reflexivity.
  split; reflexivity.
Qed.

(** X7 on a response with nothing but the two codes. *)
Lemma device_authorization_missing_members_witness :
  exists auth,
    requestDeviceAuthorization sample_engine bare_authorization
    = Normal auth
    /\ verification_uri_complete auth = "undefined"
    /\ interval auth = Fin 5
    /\ expires_in auth = None
    /\ device_code_shown auth
       = [ Did (Fetch DeviceAuthorizationRequest);
           OnDeviceCode "ABCD-1234" "undefined" ].
Proof.
  destruct (device_authorization_missing_members sample_engine 200
              EmptyString
              [ ("user_code", JStr "ABCD-1234");
                ("device_code", JStr "device-1") ] eq_refl)
    as [auth [Hauth [_ [_ [_ [Hexpires [Hinterval Hshown]]]]]]].
  exists auth. split; [exact Hauth|].
  destruct (Hshown eq_refl) as [Hcomplete Hlist].
  split; [exact Hcomplete|]. split; [exact (Hinterval eq_refl)|].
  split; [exact (Hexpires eq_refl)|].
  rewrite Hlist. f_equal. f_equal.
  injection Hauth as <-. reflexivity.
Defined.

(** X8: a refresh the endpoint refuses writes nothing.  When the reply's
    status is outside 200..299, [refreshKimiCoderToken], once it has gone
    to the network, fails with an error whose message is the reply's
    [error_description] when that is a non-empty string, and
    "Token refresh failed (<status>)" when there is none; the file system
    is left as it was. *)
Theorem refused_refresh_writes_nothing (E : Engine) (fs : filesystem)
  (credentials : OAuthCredentials) (now : Z) (r : request) (status : Z)
  (raw : string) (members : list (string * json)) (received : Z) :
  refreshKimiCoderToken_begin E fs credentials now = Awaiting r ->
  response_ok status = false ->
  (forall d c,
     assoc "error_description" members = Some (JStr (String d c)) ->
     refreshKimiCoderToken E fs credentials now
       {| reply := Response status raw (Encodes (JObj members));
          received_at := received |}
     = (Throw (Error (String d c)), fs, [Fetch r]))
  /\ (assoc "error_description" members = None ->
      refreshKimiCoderToken E fs credentials now
        {| reply := Response status raw (Encodes (JObj members));
           received_at := received |}
      = (Throw (Error ("Token refresh failed ("
                       ++ number_to_string E (num_of_Z status) ++ ")")),
         fs, [Fetch r])).
Proof.
  intros Hbegin Hrefused.
  unfold refreshKimiCoderToken, refreshKimiCoderToken_resume,
    refresh_response.
  rewrite Hbegin. cbn [reply JSON_parse bind]. rewrite Hrefused.
  cbn [negb]. rewrite get_prop_members. split.
  - intros d c ->. reflexivity.
  - intros ->. reflexivity.
Qed.

(** X8 on a 400 answer with [error_description: "invalid_grant"], the
    sample token on disk having 100 seconds left. *)
Lemma refused_refresh_writes_nothing_witness :
  refreshKimiCoderToken sample_engine (sample_files other_provider)
    sample_credentials 4900000
    {| reply := invalid_grant_reply; received_at := 4900100 |}
  = (Throw (Error "invalid_grant"), sample_files other_provider,
     [Fetch (RefreshGrant "old-refresh")]).
Proof.
  apply (proj1 (refused_refresh_writes_nothing sample_engine
                  (sample_files other_provider) sample_credentials 4900000
                  (RefreshGrant "old-refresh") 400 EmptyString
                  [ ("error", JStr "invalid_grant");
                    ("error_description", JStr "invalid_grant") ]
                  4900100 eq_refl eq_refl)).
  reflexivity.
Defined.

(** X9: the polling loop has no handler of its own.  When answers
    [0 .. k-1] fall through and request [k] is rejected by the network,
    or answered with a body that is not JSON or is JSON [null], the login
    ends there with that failure, after exactly [k + 1] requests: it is
    not taken for a pending answer. *)
Theorem pollForToken_stops_at_failure (E : Engine)
  (auth : DeviceAuthorization) (net : nat -> exchange) (k : nat)
  (failure : exn) :
  num_ltb (num_of_nat k) (maxAttempts auth) = true ->
  (forall i, i < k -> falls_through E (reply (net i)) = true) ->
  match reply (net k) with
  | Rejected => failure = FetchError
  | Response _ _ Malformed => failure = SyntaxError
  | Response _ _ (Encodes JNull) => failure = TypeError
  | _ => False
  end ->
  forall fuel, k < fuel ->
    pollForToken E fuel auth net
    = Some (Throw failure, poll_log auth (S k))
    /\ List.length (requests (poll_log auth (S k))) = S k.
Proof.
  intros Hbound Hbefore Hfailure fuel Hfuel.
  split; [|apply requests_poll_log].
  assert (Honce : poll_once E (net k) = Throw failure).
  { unfold poll_once.
    destruct (reply (net k)) as [|status raw [|[ | | | | | ]]];
      try contradiction; subst failure; cbn [JSON_parse bind of_json];
      try reflexivity.
    now destruct (status =? 200)%Z. }
  unfold pollForToken.
  replace fuel with (k + S (fuel - S k)) by lia.
  rewrite poll_loop_falls_through.
  - cbn [Nat.add poll_loop]. rewrite Hbound, Honce.
    now rewrite poll_log_snoc.
  - intros i Hi. cbn [Nat.add]. split.
    + apply (num_ltb_below i k); [lia | exact Hbound].
    + apply falls_through_poll_once, Hbefore, Hi.
Qed.

(** X9 on a server that answers pending twice and then cannot be
    reached. *)
Lemma pollForToken_stops_at_failure_witness :
  pollForToken sample_engine 10 (sample_auth (Some (Fin 900)) (Fin 5))
    (pending_then_unreachable 2)
  = Some (Throw FetchError,
          poll_log (sample_auth (Some (Fin 900)) (Fin 5)) 3)
  /\ List.length
       (requests (poll_log (sample_auth (Some (Fin 900)) (Fin 5)) 3)) = 3.
Proof.
  apply (pollForToken_stops_at_failure sample_engine
           (sample_auth (Some (Fin 900)) (Fin 5))
           (pending_then_unreachable 2) 2 FetchError).
  - reflexivity.
  - intros [|[|i]] Hi; [reflexivity | reflexivity | lia].
  - reflexivity.
  - lia.
Defined.

(** X10: only a status of exactly 200 delivers a token.  Answers with any
    other status and no [error] member fall through even when they carry
    an access token; if every answer up to the attempt bound [M] is of
    that kind, the login times out after [M] requests. *)
Theorem token_outside_200_is_ignored (E : Engine)
  (auth : DeviceAuthorization) (net : nat -> exchange) (M : nat) :
  attempts_of (maxAttempts auth) = Some M ->
  (forall i, i < M ->
     exists status raw members,
       reply (net i) = Response status raw (Encodes (JObj members))
       /\ status <> 200%Z
       /\ assoc "error" members = None) ->
  forall fuel, M < fuel ->
    exists log,
      pollForToken E fuel auth net = Some (Throw LOGIN_TIMED_OUT, log)
      /\ List.length (requests log) = M.
Proof.
  intros HM Hanswers fuel Hfuel.
  destruct (pollForToken_ends_within E auth net M HM fuel Hfuel)
    as [result [log [Hrun [_ Hout]]]].
  destruct Hout as [-> Hlen].
  - intros i Hi.
    destruct (Hanswers i Hi) as [status [raw [members [-> [Hstatus Herr]]]]].
    unfold falls_through, token_response.
    apply Z.eqb_neq in Hstatus. rewrite Hstatus.
    rewrite get_prop_members, Herr. reflexivity.
  - exists log. now split.
Qed.

(** X10 on a server that answers 201 with an access token, three times,
    for a device code valid for 12 seconds polled every 5 seconds. *)
Lemma token_outside_200_is_ignored_witness :
  exists log,
    pollForToken sample_engine 10 (sample_auth (Some (Fin 12)) (Fin 5))
      (fun _ => {| reply := body [ ("access_token", JStr "new-access") ] 201;
                   received_at := 0 |})
    = Some (Throw LOGIN_TIMED_OUT, log)
    /\ List.length (requests log) = 3.
Proof.
  apply (token_outside_200_is_ignored sample_engine
           (sample_auth (Some (Fin 12)) (Fin 5))
           (fun _ => {| reply := body [ ("access_token", JStr "new-access") ]
                                   201;
                        received_at := 0 |}) 3).
  - reflexivity.
  - intros i Hi. exists 201%Z, EmptyString,
      [ ("access_token", JStr "new-access") ].
    repeat split. discriminate.
  - lia.
Defined.

(** ** Login *)

Lemma importable_cases (E : Engine) (token : value) (now : Z) :
  importable E token now
  = Normal (has_truthy token "access_token"
            && num_gtb (ToNumber E (field token "expires_at"))
                       (seconds_from now 60)).
Proof.
  unfold importable.
  destruct (truthy token) eqn:Ht; cbn [negb].
  - unfold has_truthy. rewrite !(truthy_get_prop _ _ Ht). cbn [bind].
    now destruct (truthy (field token "access_token")).
  - destruct (has_truthy token "access_token") eqn:Ha; [|reflexivity].
    apply has_truthy_truthy in Ha. congruence.
Qed.

Lemma saveKimiCliToken_frame (fs fs' : filesystem) (token : KimiToken) :
  saveKimiCliToken fs token = Normal fs' -> only_credentials_written fs fs'.
Proof.
  unfold saveKimiCliToken, mkdirSync, writeFileSync, JSON_stringify.
  cbn [writable].
  destruct (kimi_cli_writable fs) eqn:Hw; cbn [bind try_catch].
  - destruct (to_json token); cbn [try_catch]; intros [= <-];
      now repeat split.
  - intros [= <-]. now repeat split.
Qed.

Lemma saveKimiCliToken_total (fs : filesystem) (token : KimiToken) :
  exists fs', saveKimiCliToken fs token = Normal fs'.
Proof.
  unfold saveKimiCliToken, mkdirSync, writeFileSync, JSON_stringify.
  cbn [writable].
  destruct (kimi_cli_writable fs); cbn [bind try_catch]; eauto.
  destruct (to_json token); cbn [try_catch]; eauto.
Qed.

(** X11: login reuses a companion token that is still good.  When the
    credentials file holds a token with a truthy access token that stays
    valid for more than 60 seconds, [loginKimiCoder] returns it with its
    expiry in milliseconds; no request is made, no device code is shown
    and nothing is written, whatever the servers would answer. *)
Theorem login_reuses_valid_companion_token (E : Engine) (fuel : nat)
  (fs : filesystem) (now : Z) (authorization : http)
  (net : nat -> exchange) (disk : value) :
  loadKimiCliToken fs = Normal disk ->
  has_truthy disk "access_token" = true ->
  num_gtb (ToNumber E (field disk "expires_at")) (seconds_from now 60)
  = true ->
  loginKimiCoder E fuel fs now authorization net
  = Some (Normal (credentials_for E disk), fs, []).
Proof.
  intros Hload Ha Hvalid. unfold loginKimiCoder.
  rewrite Hload. cbn [bind]. rewrite importable_cases, Ha, Hvalid.
  cbn [andb bind].
  now rewrite (credentials_of_truthy E disk (has_truthy_truthy _ _ Ha)).
Qed.

(** X11 with the sample token (valid until second 5000) at millisecond
    1000000, against servers that would refuse everything. *)
Lemma login_reuses_valid_companion_token_witness :
  loginKimiCoder sample_engine 0 (sample_files Missing) 1000000
    Rejected (pending_then_unreachable 0)
  = Some (Normal {| refresh := VStr "disk-refresh";
                    access := VStr "disk-access";
                    expires := num_mul (Fin 5000) (Fin 1000) |},
          sample_files Missing, []).
Proof.
  apply (login_reuses_valid_companion_token sample_engine 0
           (sample_files Missing) 1000000 Rejected
           (pending_then_unreachable 0) (of_json sample_token));
    reflexivity.
Defined.

(** X12: a login whose device authorization fails stops there.  Without
    a reusable companion token, when the authorization request is
    rejected, refused with a status outside 200..299, or answered with a
    body that is not JSON, [loginKimiCoder] fails with that error (for a
    refusal: "Device authorization failed (<status>): <body>"); the only
    effect is the one request: no device code is shown, no token is
    polled for, nothing is written. *)
Theorem login_stops_at_failed_authorization (E : Engine) (fuel : nat)
  (fs : filesystem) (now : Z) (authorization : http)
  (net : nat -> exchange) (disk : value) (failure : exn) :
  loadKimiCliToken fs = Normal disk ->
  has_truthy disk "access_token"
  && num_gtb (ToNumber E (field disk "expires_at")) (seconds_from now 60)
  = false ->
  match authorization with
  | Rejected => failure = FetchError
  | Response status raw body =>
      if response_ok status
      then body = Malformed /\ failure = SyntaxError
      else failure = Error ("Device authorization failed ("
                            ++ number_to_string E (num_of_Z status)
                            ++ "): " ++ raw)
  end ->
  loginKimiCoder E fuel fs now authorization net
  = Some (Throw failure, fs, [Did (Fetch DeviceAuthorizationRequest)]).
Proof.
  intros Hload Hstale Hfailure. unfold loginKimiCoder.
  rewrite Hload. cbn [bind]. rewrite importable_cases, Hstale.
  cbn [bind]. unfold requestDeviceAuthorization.
  destruct authorization as [|status raw body]; [now subst|].
  destruct (response_ok status); cbn [negb].
  - destruct Hfailure as [-> ->]. reflexivity.
  - now subst.
Qed.

(** X12 with no companion token and an authorization answered 503. *)
Lemma login_stops_at_failed_authorization_witness :
  loginKimiCoder sample_engine 10
    {| kimi_cli_credentials := Missing; kimi_cli_writable := true;
       pi_auth := other_provider; pi_auth_writable := true |}
    1000000 (Response 503 "Service Unavailable" Malformed) always_pending
  = Some (Throw (Error "Device authorization failed (503): Service Unavailable"),
          {| kimi_cli_credentials := Missing; kimi_cli_writable := true;
             pi_auth := other_provider; pi_auth_writable := true |},
          [Did (Fetch DeviceAuthorizationRequest)]).
Proof.
  apply (login_stops_at_failed_authorization sample_engine 10 _ 1000000
           (Response 503 "Service Unavailable" Malformed) always_pending
           VNull); reflexivity.
Defined.

(** X13: what any finished login has done.  The broker file is never
    written.  The log is empty (the companion token was reused), or the
    one authorization request (it failed), or the authorization request,
    then the device code shown once, then some number of turns of the
    polling loop: the code is shown before the first sleep.  And a login
    that fails leaves the file system as it was: the companion file is
    written only after polling delivered a token. *)
Theorem login_effects (E : Engine) (fuel : nat) (fs fs' : filesystem)
  (now : Z) (authorization : http) (net : nat -> exchange)
  (result : completion OAuthCredentials) (log : list login_event) :
  loginKimiCoder E fuel fs now authorization net
  = Some (result, fs', log) ->
  only_credentials_written fs fs'
  /\ (log = []
      \/ log = [Did (Fetch DeviceAuthorizationRequest)]
      \/ exists auth n,
           requestDeviceAuthorization E authorization = Normal auth
           /\ log = (device_code_shown auth
                     ++ map Did (poll_log auth n))%list)
  /\ match result with
     | Throw _ => fs' = fs
     | Normal _ => True
     end.
Proof.
  assert (Hsame : only_credentials_written fs fs) by now repeat split.
  unfold loginKimiCoder.
  destruct (loadKimiCliToken_total fs) as [disk ->]. cbn [bind].
  rewrite importable_cases. cbn [bind].
  destruct (has_truthy disk "access_token" && _) eqn:Hvalid.
  - intros [= <- <- <-]. split; [exact Hsame|]. split; [now left|].
    now destruct (credentials_of E disk).
  - destruct (requestDeviceAuthorization E authorization) as [auth|e].
    2:{ intros [= <- <- <-]. split; [exact Hsame|]. split; auto. }
    destruct (pollForToken E fuel auth net) as [[[token|e] polled]|]
      eqn:Hpoll; [| |discriminate].
    + destruct (poll_loop_finished E auth net _ fuel 0 _ _ Hpoll)
        as [n [-> [_ Hend]]].
      destruct Hend as [[Hout _] | [m [-> [_ Hlast]]]]; [discriminate|].
      cbn [Nat.add] in Hlast.
      destruct (poll_once E (net m)) as [[token'|]|e] eqn:Honce;
        try contradiction; try discriminate.
      injection Hlast as <-.
      destruct (poll_once_token E _ _ Honce) as [raw [j [_ ->]]].
      destruct (saveKimiCliToken_total fs
                  (token_built E (of_json j) (received_at (net m))))
        as [saved Hsaved].
      rewrite Hsaved.
      rewrite (credentials_of_truthy E _ (token_built_truthy E _ _)).
      intros [= <- <- <-].
      split; [exact (saveKimiCliToken_frame _ _ _ Hsaved)|].
      split; [|exact I]. right. right. exists auth, (S m). now split.
    + destruct (poll_loop_finished E auth net _ fuel 0 _ _ Hpoll)
        as [n [-> _]].
      intros [= <- <- <-]. split; [exact Hsame|].
      split; [|reflexivity]. right. right. exists auth, n. now split.
Qed.

(** X13 on a full login: no companion token, the usual authorization,
    two pending answers, then the token. *)
Lemma login_effects_witness :
  exists result fs' log,
    loginKimiCoder sample_engine 10
      {| kimi_cli_credentials := Missing; kimi_cli_writable := true;
         pi_auth := other_provider; pi_auth_writable := true |}
      1000000 usual_authorization (pending_then 2 token_reply)
    = Some (result, fs', log)
    /\ pi_auth fs' = other_provider
    /\ (log = []
        \/ log = [Did (Fetch DeviceAuthorizationRequest)]
        \/ exists auth n,
             requestDeviceAuthorization sample_engine usual_authorization
             = Normal auth
             /\ log = (device_code_shown auth
                       ++ map Did (poll_log auth n))%list).
Proof.
  destruct (loginKimiCoder sample_engine 10
              {| kimi_cli_credentials := Missing; kimi_cli_writable := true;
                 pi_auth := other_provider; pi_auth_writable := true |}
              1000000 usual_authorization (pending_then 2 token_reply))
    as [[[result fs'] log]|] eqn:Hrun; [|vm_compute in Hrun; discriminate].
  exists result, fs', log. split; [reflexivity|].
  destruct (login_effects sample_engine 10 _ _ 1000000 usual_authorization
              (pending_then 2 token_reply) _ _ Hrun)
    as [[Hbroker _] [Hlog _]].
  split; [exact Hbroker | exact Hlog].
Defined.

(** ** The scheduler and the entry point *)

Lemma adopt_cases (E : Engine) (data : value) (now : Z) (s : extension) :
  exists fs',
    saveKimiCliToken (files s) (token_built E data now) = Normal fs'
    /\ adopt E (token_built E data now) s
       = Normal (with_token fs'
                   (Some (ToString E (field data "access_token"))) s).
Proof.
  destruct (saveKimiCliToken_total (files s) (token_built E data now))
    as [fs' Hsave].
  exists fs'. split; [exact Hsave|]. unfold adopt. now rewrite Hsave.
Qed.

(** X14: what the reply to a scheduled refresh does.  When the call in
    flight at position [k] was started by the timer, its reply removes it
    from the calls in flight; a failed refresh changes neither the files
    nor the exported key (the next firing tries again); a successful one
    saves the new token to the companion file and sets
    [KIMI_CODER_API_KEY] to its access token, whatever the key was
    before. *)
Theorem scheduled_refresh_outcome (E : Engine) (s s' : extension)
  (k : nat) (x : exchange) (call : refresh_call) :
  nth_error (in_flight s) k = Some call ->
  waiting call = interval_callback ->
  step E s (reply_arrives k x) = Some s' ->
  in_flight s' = drop_nth k (in_flight s)
  /\ match refresh_response E x with
     | Throw _ =>
         files s' = files s
         /\ KIMI_CODER_API_KEY s' = KIMI_CODER_API_KEY s
     | Normal token =>
         saveKimiCliToken (files s) token = Normal (files s')
         /\ KIMI_CODER_API_KEY s'
            = Some (ToString E (field token "access_token"))
     end.
Proof.
  intros Hcall Hwho. cbn [step]. rewrite Hcall, Hwho. intros [= <-].
  unfold settle.
  destruct (refresh_response E x) as [token|e] eqn:Hresponse; cbn [bind].
  - destruct (refresh_response_token E x token Hresponse)
      as [status [raw [j [_ ->]]]].
    destruct (adopt_cases E (of_json j) (received_at x)
                (with_in_flight (drop_nth k (in_flight s)) s))
      as [fs' [Hsave ->]].
    cbn. split; [reflexivity|]. split; [exact Hsave | reflexivity].
  - cbn. auto.
Qed.

(** X14 on the sample state with one refresh in flight, answered with the
    sample token reply. *)
Lemma scheduled_refresh_outcome_witness :
  exists s',
    step sample_engine one_refresh_in_flight
      (reply_arrives 0 {| reply := token_reply; received_at := 4900200 |})
    = Some s'
    /\ in_flight s' = []
    /\ KIMI_CODER_API_KEY s' = Some "new-access".
Proof.
  destruct (step sample_engine one_refresh_in_flight
              (reply_arrives 0
                 {| reply := token_reply; received_at := 4900200 |}))
    as [s'|] eqn:Hstep; [|vm_compute in Hstep; discriminate Hstep].
  exists s'. split; [reflexivity|].
  destruct (scheduled_refresh_outcome sample_engine one_refresh_in_flight
              s' 0 {| reply := token_reply; received_at := 4900200 |}
              {| waiting := interval_callback;
                 posted := RefreshGrant "disk-refresh" |}
              eq_refl eq_refl Hstep) as [Hflight [_ Hkey]].
  split; [exact Hflight | exact Hkey].
Defined.

(** X15: after [session_shutdown] the timer is gone.  In every state a
    loaded extension can reach, once the shutdown handler has run no
    timer handle is set and no firing of any interval can happen any
    more; the refreshes already in flight are left to finish. *)
Theorem no_timer_after_shutdown (E : Engine) (fs : filesystem)
  (env : option string) (now now1 now2 : Z) (inputs : list input)
  (s0 s : extension) :
  activate E fs env now now1 now2 = Normal s0 ->
  run E s0 inputs = Some s ->
  refreshInterval (on_session_shutdown s) = None
  /\ intervals (on_session_shutdown s) = []
  /\ in_flight (on_session_shutdown s) = in_flight s
  /\ forall handle now',
       step E (on_session_shutdown s) (interval_fires handle now') = None.
Proof.
  intros Hstart Hrun.
  pose proof (run_one_timer E inputs s0 s
                (activate_one_timer E fs env now now1 now2 s0 Hstart) Hrun)
    as Hone.
  unfold one_timer in Hone. unfold on_session_shutdown.
  destruct (refreshInterval s) as [h|] eqn:Hhandle.
  - cbn. rewrite Hone. cbn. rewrite Nat.eqb_refl. cbn. auto.
  - cbn [step]. rewrite Hhandle, Hone. cbn. auto.
Qed.

(** X15 after the timer has been started and has fired once. *)
Lemma no_timer_after_shutdown_witness :
  exists s0 s,
    activate sample_engine (sample_files Missing) None
      4900000 4900000 4900000 = Normal s0
    /\ run sample_engine s0 [ agent_start; interval_fires 0 4900000 ]
       = Some s
    /\ refreshInterval (on_session_shutdown s) = None
    /\ step sample_engine (on_session_shutdown s)
         (interval_fires 0 5500000) = None.
Proof.
  eexists. eexists.
  split; [vm_compute; reflexivity|].
  split; [vm_compute; reflexivity|].
  split.
  - apply (proj1 (no_timer_after_shutdown sample_engine
                    (sample_files Missing) None 4900000 4900000 4900000
                    [ agent_start; interval_fires 0 4900000 ]
                    _ _ eq_refl eq_refl)).
  - apply (proj2 (proj2 (proj2
             (no_timer_after_shutdown sample_engine
                (sample_files Missing) None 4900000 4900000 4900000
                [ agent_start; interval_fires 0 4900000 ]
                _ _ eq_refl eq_refl)))).
Defined.

Lemma settle_frame (E : Engine) (who : caller) (x : exchange)
  (s : extension) :
  only_credentials_written (files s) (files (settle E who x s)).
Proof.
  assert (Hsame : only_credentials_written (files s) (files s))
    by now repeat split.
  unfold settle, adopt, refreshKimiCoderToken_resume.
  destruct who as [hasUI | | ];
    destruct (refresh_response E x) as [refreshed|]; cbn [bind];
    try (destruct hasUI; exact Hsame); try exact Hsame;
    destruct (saveKimiCliToken (files s) refreshed) as [fs'|] eqn:Hsave;
    cbn [bind]; try (destruct hasUI; exact Hsame); try exact Hsame;
    pose proof (saveKimiCliToken_frame _ _ _ Hsave) as Hframe;
    try (destruct (get_prop refreshed "access_token"); cbn [bind];
         [|destruct hasUI || idtac; exact Hsame]);
    try (destruct hasUI); exact Hframe.
Qed.

Lemma start_refresh_if_due_files (E : Engine) (who : caller) (now : Z)
  (s : extension) :
  files (start_refresh_if_due E who now s) = files s.
Proof.
  unfold start_refresh_if_due.
  now destruct (due_for_refresh E (files s) now) as [[r|]|].
Qed.

Lemma step_frame (E : Engine) (s s' : extension) (i : input) :
  step E s i = Some s' -> only_credentials_written (files s) (files s').
Proof.
  assert (Hsame : only_credentials_written (files s) (files s))
    by now repeat split.
  destruct i as [hasUI now | | h now | | credentials now | k x | f];
    cbn [step].
  - intros [= <-]. unfold on_session_start.
    rewrite start_refresh_if_due_files. destruct (seeded s && hasUI);
      exact Hsame.
  - intros [= <-]. unfold on_agent_start.
    destruct (refreshInterval s); exact Hsame.
  - destruct (existsb _ _); [|discriminate]. intros [= <-].
    unfold on_interval. now rewrite start_refresh_if_due_files.
  - intros [= <-]. unfold on_session_shutdown.
    destruct (refreshInterval s); exact Hsame.
  - destruct (refreshKimiCoderToken_begin E (files s) credentials now);
      intros [= <-]; exact Hsame.
  - destruct (nth_error (in_flight s) k) as [call|]; [|discriminate].
    intros [= <-].
    exact (settle_frame E (waiting call) x
             (with_in_flight (drop_nth k (in_flight s)) s)).
  - intros [= <-]. now repeat split.
Qed.

(** X16: once loaded, the extension never writes the broker file.
    Whatever the handlers are made to do and whatever the servers
    answer, in any order, the contents of auth.json stay what they were
    after loading: a refreshed token reaches the companion file and the
    exported key only. *)
Theorem handlers_never_write_auth_file (E : Engine)
  (inputs : list input) :
  forall s s',
    run E s inputs = Some s' ->
    pi_auth (files s') = pi_auth (files s).
Proof.
  induction inputs as [|i rest IH]; intros s s'; cbn [run].
  - now intros [= <-].
  - destruct (step E s i) as [s1|] eqn:Hstep; [|discriminate].
    intros Hrest. rewrite (IH _ _ Hrest).
    now destruct (step_frame E s s1 i Hstep).
Qed.

(** X16 on a run in which a scheduled refresh succeeds. *)
Lemma handlers_never_write_auth_file_witness :
  exists s',
    run sample_engine one_refresh_in_flight
      [ reply_arrives 0 {| reply := token_reply; received_at := 4900200 |};
        session_start true 4900300;
        session_shutdown ] = Some s'
    /\ pi_auth (files s') = other_provider.
Proof.
  destruct (run sample_engine one_refresh_in_flight
              [ reply_arrives 0
                  {| reply := token_reply; received_at := 4900200 |};
                session_start true 4900300;
                session_shutdown ]) as [s'|] eqn:Hrun;
    [|vm_compute in Hrun; discriminate Hrun].
  exists s'. split; [reflexivity|].
  exact (handlers_never_write_auth_file sample_engine _ _ _ Hrun).
Defined.

(** X17: loading respects a key the user exported.  [activate] always
    succeeds, with no timer and no refresh in flight.  A non-empty
    [KIMI_CODER_API_KEY] is kept and nothing is imported; without one,
    the companion token's access token is imported exactly when it is
    truthy and the token stays valid for more than 60 seconds. *)
Theorem activation_respects_exported_key (E : Engine) (fs : filesystem)
  (env : option string) (now now1 now2 : Z) :
  exists s,
    activate E fs env now now1 now2 = Normal s
    /\ refreshInterval s = None
    /\ in_flight s = []
    /\ (env_truthy env = true ->
        KIMI_CODER_API_KEY s = env /\ seeded s = false)
    /\ (env_truthy env = false ->
        forall disk,
          loadKimiCliToken fs = Normal disk ->
          if has_truthy disk "access_token"
             && num_gtb (ToNumber E (field disk "expires_at"))
                        (seconds_from now 60)
          then KIMI_CODER_API_KEY s
               = Some (ToString E (field disk "access_token"))
               /\ seeded s = true
          else KIMI_CODER_API_KEY s = env /\ seeded s = false).
Proof.
  unfold activate.
  destruct (seed_frame E fs now1 now2) as [seeded_ [fs' [Hseed _]]].
  rewrite Hseed.
  destruct (loadKimiCliToken_total fs) as [disk Hload]. rewrite Hload.
  cbn [bind]. rewrite importable_cases. cbn [bind].
  destruct (env_truthy env) eqn:Henv; cbn [negb bind].
  - eexists. split; [reflexivity|].
    cbn [KIMI_CODER_API_KEY seeded refreshInterval in_flight fst snd].
    repeat split; auto. discriminate.
  - destruct (has_truthy disk "access_token" && _) eqn:Hvalid.
    + pose proof Hvalid as Hboth.
      apply andb_true_iff in Hboth. destruct Hboth as [Ha _].
      rewrite (truthy_get_prop _ _ (has_truthy_truthy _ _ Ha)).
      cbn [bind]. eexists. split; [reflexivity|].
      cbn [KIMI_CODER_API_KEY seeded refreshInterval in_flight fst snd].
      split; [reflexivity|]. split; [reflexivity|].
      split; [discriminate|].
      intros _ disk' [= <-]. rewrite Hvalid. auto.
    + eexists. split; [reflexivity|].
      cbn [KIMI_CODER_API_KEY seeded refreshInterval in_flight fst snd].
      split; [reflexivity|]. split; [reflexivity|].
      split; [discriminate|].
      intros _ disk' [= <-]. rewrite Hvalid. auto.
Qed.

(** X17 with an exported key next to a valid companion token. *)
Lemma activation_respects_exported_key_witness :
  exists s,
    activate sample_engine (sample_files Missing) (Some "exported-by-user")
      1000000 1000000 1000000 = Normal s
    /\ KIMI_CODER_API_KEY s = Some "exported-by-user"
    /\ seeded s = false.
Proof.
  destruct (activation_respects_exported_key sample_engine
              (sample_files Missing) (Some "exported-by-user")
              1000000 1000000 1000000)
    as [s [Hstart [_ [_ [Hkept _]]]]].
  exists s. split; [exact Hstart|]. exact (Hkept eq_refl).
Defined.

(** X18: a stored token whose [expires_at] does not convert to a number
    (it is missing, for one) is never refreshed by the scheduler: neither
    the session-start check nor a firing of the timer starts a refresh
    for it, since the remaining time is NaN and NaN is not below 300. *)
Theorem token_without_expiry_is_never_refreshed (E : Engine)
  (s : extension) (token : value) (hasUI : bool) (now : Z) :
  loadKimiCliToken (files s) = Normal token ->
  ToNumber E (field token "expires_at") = NaN ->
  in_flight (on_interval E now s) = in_flight s
  /\ in_flight (on_session_start E hasUI now s) = in_flight s.
Proof.
  intros Hload Hnan.
  assert (Hnone : due_for_refresh E (files s) now = Normal None).
  { rewrite (due_for_refresh_cases E _ now token Hload), Hnan.
    cbn [num_sub num_ltb]. now rewrite andb_false_r. }
  unfold on_interval, on_session_start, start_refresh_if_due.
  split.
  - now rewrite Hnone.
  - destruct (seeded s && hasUI); cbn [with_notice files];
      now rewrite Hnone.
Qed.

(** X18 on a credentials file holding nothing but the two tokens. *)
Lemma token_without_expiry_is_never_refreshed_witness :
  in_flight (on_interval sample_engine 4900000
               {| files := token_without_expiry;
                  KIMI_CODER_API_KEY := None;
                  seeded := false;
                  refreshInterval := Some 0;
                  intervals := [0];
                  next_handle := 1;
                  in_flight := [];
                  notices := [] |}) = []
  /\ in_flight (on_session_start sample_engine true 4900000
                  {| files := token_without_expiry;
                     KIMI_CODER_API_KEY := None;
                     seeded := false;
                     refreshInterval := Some 0;
                     intervals := [0];
                     next_handle := 1;
                     in_flight := [];
                     notices := [] |}) = [].
Proof.
  apply (token_without_expiry_is_never_refreshed sample_engine
           {| files := token_without_expiry;
              KIMI_CODER_API_KEY := None;
              seeded := false;
              refreshInterval := Some 0;
              intervals := [0];
              next_handle := 1;
              in_flight := [];
              notices := [] |}
           (of_json bare_token) true 4900000); reflexivity.
Defined.

(** X19: refreshing the very credentials the companion file holds goes
    to the network.  When the file holds no token, or a token whose
    access token is the cached one, [refreshKimiCoderToken] posts one
    refresh grant with the cached refresh token, however long the token
    on disk remains valid. *)
Theorem refresh_of_stored_credentials_posts (E : Engine) (fs : filesystem)
  (credentials : OAuthCredentials) (now : Z) (x : exchange)
  (disk : value) :
  loadKimiCliToken fs = Normal disk ->
  truthy disk = false
  \/ strict_eq (field disk "access_token") (access credentials) = true ->
  snd (refreshKimiCoderToken E fs credentials now x)
  = [Fetch (RefreshGrant (ToString E (refresh credentials)))].
Proof.
  intros Hload Hsame. unfold refreshKimiCoderToken.
  rewrite (refreshKimiCoderToken_begin_cases E fs credentials now disk
             Hload).
  assert (Hnot : truthy disk
                 && negb (strict_eq (field disk "access_token")
                            (access credentials))
                 && num_gtb (ToNumber E (field disk "expires_at"))
                            (seconds_from now 300) = false).
  { destruct Hsame as [-> | ->]; [reflexivity|].
    cbn [negb]. now rewrite andb_false_r. }
  rewrite Hnot.
  now destruct (refreshKimiCoderToken_resume E fs x).
Qed.

(** X19 with the credentials of the sample token itself, 4000 seconds
    before it expires. *)
Lemma refresh_of_stored_credentials_posts_witness :
  snd (refreshKimiCoderToken sample_engine (sample_files Missing)
         {| refresh := VStr "disk-refresh";
            access := VStr "disk-access";
            expires := Fin 5000000 |}
         1000000 {| reply := token_reply; received_at := 1000100 |})
  = [Fetch (RefreshGrant "disk-refresh")].
Proof.
  apply (refresh_of_stored_credentials_posts sample_engine
           (sample_files Missing)
           {| refresh := VStr "disk-refresh";
              access := VStr "disk-access";
              expires := Fin 5000000 |}
           1000000 {| reply := token_reply; received_at := 1000100 |}
           (of_json sample_token)).
  - reflexivity.
  - right. reflexivity.
Defined.

(** X20: [refreshAccessToken] does not check what a successful reply
    carries.  A reply with a status in 200..299 whose JSON object has
    neither [access_token] nor [refresh_token] is taken for a token:
    both become the string "undefined", and [refreshKimiCoderToken],
    once it has gone to the network, returns credentials with these two
    strings and saves the token. *)
Theorem refresh_accepts_reply_without_tokens (E : Engine)
  (fs : filesystem) (status : Z) (raw : string)
  (members : list (string * json)) (received : Z) :
  response_ok status = true ->
  assoc "access_token" members = None ->
  assoc "refresh_token" members = None ->
  exists token fs',
    refresh_response E
      {| reply := Response status raw (Encodes (JObj members));
         received_at := received |} = Normal token
    /\ field token "access_token" = VStr "undefined"
    /\ field token "refresh_token" = VStr "undefined"
    /\ has_truthy token "access_token"
       && has_truthy token "refresh_token" = true
    /\ saveKimiCliToken fs token = Normal fs'
    /\ refreshKimiCoderToken_resume E fs
         {| reply := Response status raw (Encodes (JObj members));
            received_at := received |}
       = (Normal {| refresh := VStr "undefined";
                    access := VStr "undefined";
                    expires := num_mul
                                 (ToNumber E (field token "expires_at"))
                                 (Fin 1000) |}, fs').
Proof.
  intros Hok Ha Hr.
  assert (Hresponse :
            refresh_response E
              {| reply := Response status raw (Encodes (JObj members));
                 received_at := received |}
            = Normal (token_built E (of_json (JObj members)) received)).
  { unfold refresh_response. cbn [reply received_at JSON_parse bind].
    rewrite Hok. cbn [negb].
    apply (token_of_response_built E _ _ "access_token" _
             (get_prop_members members "access_token")). }
  destruct (saveKimiCliToken_total fs
              (token_built E (of_json (JObj members)) received))
    as [fs' Hsave].
  exists (token_built E (of_json (JObj members)) received), fs'.
  split; [exact Hresponse|].
  assert (Hfa : field (of_json (JObj members)) "access_token" = VUndef).
  { unfold field. rewrite get_prop_members. now rewrite Ha. }
  assert (Hfr : field (of_json (JObj members)) "refresh_token" = VUndef).
  { unfold field. rewrite get_prop_members. now rewrite Hr. }
  assert (Hta : field (token_built E (of_json (JObj members)) received)
                  "access_token" = VStr "undefined").
  { unfold token_built. rewrite Hfa. reflexivity. }
  assert (Htr : field (token_built E (of_json (JObj members)) received)
                  "refresh_token" = VStr "undefined").
  { unfold token_built. rewrite Hfr. reflexivity. }
  split; [exact Hta|]. split; [exact Htr|]. split.
  - rewrite !has_truthy_field, Hta, Htr. reflexivity.
  - split; [exact Hsave|].
    unfold refreshKimiCoderToken_resume. rewrite Hresponse, Hsave.
    rewrite (credentials_of_truthy E _ (token_built_truthy E _ _)).
    unfold credentials_for. now rewrite Hta, Htr.
Qed.

(** X20 on a reply [200 {}]. *)
Lemma refresh_accepts_reply_without_tokens_witness :
  exists token fs',
    refresh_response sample_engine
      {| reply := body [] 200; received_at := 1000000 |} = Normal token
    /\ field token "access_token" = VStr "undefined"
    /\ field token "refresh_token" = VStr "undefined"
    /\ has_truthy token "access_token"
       && has_truthy token "refresh_token" = true
    /\ saveKimiCliToken (sample_files Missing) token = Normal fs'
    /\ refreshKimiCoderToken_resume sample_engine (sample_files Missing)
         {| reply := body [] 200; received_at := 1000000 |}
       = (Normal {| refresh := VStr "undefined";
                    access := VStr "undefined";
                    expires := num_mul
                                 (ToNumber sample_engine
                                    (field token "expires_at"))
                                 (Fin 1000) |}, fs').
Proof.
  apply (refresh_accepts_reply_without_tokens sample_engine
           (sample_files Missing) 200 EmptyString [] 1000000);
    reflexivity.
Defined.

(** X21: the polling pace never changes.  The log of every finished run
    of [pollForToken] is the same two steps repeated, "sleep
    [interval * 1000] milliseconds, post the device-code grant", once per
    request: whatever the server answers, [slow_down] included, the next
    sleep is as long as the first. *)
Theorem polling_pace_is_constant (E : Engine) (fuel : nat)
  (auth : DeviceAuthorization) (net : nat -> exchange)
  (result : completion KimiToken) (log : list event) :
  pollForToken E fuel auth net = Some (result, log) ->
  log = List.concat
          (repeat [ Sleep (num_mul (interval auth) (Fin 1000));
                    Fetch (DeviceCodeGrant (device_code auth)) ]
                  (List.length (requests log))).
Proof.
  intros Hrun.
  destruct (poll_loop_finished E auth net _ fuel 0 _ _ Hrun)
    as [n [-> _]].
  now rewrite requests_poll_log.
Qed.

(** X21 on a server that answers [slow_down] twice before the token. *)
Lemma polling_pace_is_constant_witness :
  exists result log,
    pollForToken sample_engine 10 (sample_auth (Some (Fin 900)) (Fin 5))
      (slow_down_then 2 token_reply) = Some (result, log)
    /\ log = [ Sleep (Fin 5000); Fetch (DeviceCodeGrant "device-1");
               Sleep (Fin 5000); Fetch (DeviceCodeGrant "device-1");
               Sleep (Fin 5000); Fetch (DeviceCodeGrant "device-1") ].
Proof.
  destruct (pollForToken sample_engine 10
              (sample_auth (Some (Fin 900)) (Fin 5))
              (slow_down_then 2 token_reply))
    as [[result log]|] eqn:Hrun; [|vm_compute in Hrun; discriminate Hrun].
  exists result, log. split; [reflexivity|].
  rewrite (polling_pace_is_constant sample_engine 10 _ _ _ _ Hrun).
  assert (Hn : List.length (requests log) = 3).
  { vm_compute in Hrun. injection Hrun as _ <-. reflexivity. }
  rewrite Hn. reflexivity.
Defined.
